(** * findingpalette: the palette synthesis and localisation pipeline of
    [palette.cpp], embedded shallowly.

    The program keeps one global settings struct ([init_values]), prints to
    [cout], and calls OpenCV for smoothing, clustering, sorting, concatenation
    and template correlation.  The embedding follows that shape:

    - machine [int]s are integers of [Z].  Where the program multiplies or
      adds values that a settings file or a caller supplies (the footprint of
      [setwin], the number of samples, the length of the vector of
      [bincount]) the result goes through [int_result]: a value no [int]
      holds is signed overflow, undefined behaviour.  The coordinates of the
      deduplication loop are positions of a surface; [differences_in_int]
      and [colors_in_int] give the inputs on which that arithmetic stays
      within [int].  The one place where a conversion changes a value (the
      [size_t] loop bound of [create_palette]) is written out;
    - [float] and [double] values are modelled by the value they denote
      ([float_val]); the program compares them, and stores them into 8-bit
      pixels ([saturate_cast_uchar]);
    - a [cv::Mat] is its two dimensions and its cells ([Mat]);
    - what OpenCV computes from the pixels of an image (smoothing, resizing,
      clustering, correlation) is given with the image ([Entry]), each call
      with the result it returns or the exception it throws;
    - code that reads or writes the global struct or prints runs in the monad
      [M], a state monad over [World] in which a failure leaves the state as
      it was when the failure happened. *)

From Stdlib Require Import ZArith QArith Qround Lia Ascii.
From stdpp Require Import base strings list sorting.

Local Open Scope Z_scope.

(** ** Floating-point values *)

(** The value a [float] or [double] denotes.  Converting a [float] to a
    [double] keeps that value, so one type serves both. *)
Inductive float_val : Type :=
  | FNaN
  | FInf (negative : bool)
  | FNum (q : Q).

Definition is_nan (a : float_val) : bool :=
  match a with FNaN => true | _ => false end.

(** [a <= b] as the hardware compares: false as soon as one side is a NaN. *)
Definition fle (a b : float_val) : bool :=
  match a, b with
  | FNaN, _ | _, FNaN => false
  | FInf true, _ => true
  | _, FInf false => true
  | FInf false, _ => false
  | _, FInf true => false
  | FNum p, FNum q => Qle_bool p q
  end.

(** [a >= b]. *)
Definition fge (a b : float_val) : bool := fle b a.

(** [a == b]: a NaN is equal to nothing, itself included. *)
Definition feq (a b : float_val) : bool :=
  match a, b with
  | FNaN, _ | _, FNaN => false
  | FInf s, FInf t => Bool.eqb s t
  | FNum p, FNum q => Qeq_bool p q
  | _, _ => false
  end.

(** ** Points and matrices *)

Record Point : Type := mkPoint { px : Z; py : Z }.

(** [cv::Mat]: [rows], [cols] and the cell at each position.  Positions
    outside the dimensions hold no cell of the matrix: the program reads a
    cell through [mat_at], which refuses them. *)
Record Mat (A : Type) : Type := mkMat {
  rows : Z;
  cols : Z;
  data : Z -> Z -> A
}.
Arguments mkMat {A} _ _ _.
Arguments rows {A} _.
Arguments cols {A} _.
Arguments data {A} _ _ _.

(** Dimensions are non-negative [int]s. *)
Definition INT_MAX : Z := 2147483647.
Definition INT_MIN : Z := -2147483648.

(** A value an [int] can hold. *)
Definition in_int (z : Z) : Prop := INT_MIN <= z <= INT_MAX.

Definition mat_wf {A} (m : Mat A) : Prop :=
  0 <= rows m <= INT_MAX /\ 0 <= cols m <= INT_MAX.

(** A colour as [cv::Scalar] carries it: three channel values. *)
Definition Scalar : Type := (float_val * float_val * float_val)%type.

(** A pixel of a [CV_8UC3] matrix: three bytes. *)
Definition Vec3b : Type := (Z * Z * Z)%type.

(** The integer nearest to [q], the even one of the two when [q] lies half
    way between them. *)
Definition round_half_even (q : Q) : Z :=
  let f := Qfloor q in
  match Qcompare (q - inject_Z f) (1 # 2) with
  | Lt => f
  | Gt => f + 1
  | Eq => if Z.even f then f else f + 1
  end.

(** [cvRound(double)] as OpenCV computes it on x86-64, with the instruction
    [cvtsd2si]: rounding to nearest, ties to even; a NaN, an infinity or a
    value whose rounding no [int] holds gives [INT_MIN]. *)
Definition cvRound (v : float_val) : Z :=
  match v with
  | FNum q =>
      let z := round_half_even q in
      if (INT_MIN <=? z) && (z <=? INT_MAX) then z else INT_MIN
  | _ => INT_MIN
  end.

(** [saturate_cast<uchar>(double)]: [cvRound], then the nearest value a byte
    holds. *)
Definition saturate_cast_uchar (v : float_val) : Z :=
  let iv := cvRound v in
  if iv <? 0 then 0 else if 255 <? iv then 255 else iv.

(** The pixel a [CV_8UC3] matrix stores for a scalar. *)
Definition pixel_of (s : Scalar) : Vec3b :=
  let '(c0, c1, c2) := s in
  (saturate_cast_uchar c0, saturate_cast_uchar c1, saturate_cast_uchar c2).

(** ** Failures *)

(** What can go wrong: a C++ exception (which a [catch] can intercept) or
    undefined behaviour (which nothing can). *)
Inductive error : Type :=
  | Exception (what : string)
  | Undefined (why : string).

Inductive result (A : Type) : Type :=
  | Ok (a : A)
  | Err (e : error).
Arguments Ok {A} _.
Arguments Err {A} _.

#[global] Instance result_ret : MRet result := fun A a => Ok a.
#[global] Instance result_bind : MBind result := fun A B f m =>
  match m with
  | Ok a => f a
  | Err e => Err e
  end.

Definition out_of_bounds : error := Undefined "Mat::at out of range".

(** A result that is not undefined behaviour. *)
Definition defined {A} (r : result A) : Prop :=
  forall why, r <> Err (Undefined why).

(** The result of an arithmetic operation on [int]s whose exact value is
    [z]: a value no [int] holds is signed overflow, which is undefined. *)
Definition int_result (z : Z) : result Z :=
  if (INT_MIN <=? z) && (z <=? INT_MAX) then Ok z
  else Err (Undefined "signed integer overflow").

(** [m.at<T>(i, j)]: reading outside the matrix is undefined behaviour. *)
Definition mat_at {A} (m : Mat A) (i j : Z) : result A :=
  if (0 <=? i) && (i <? rows m) && (0 <=? j) && (j <? cols m)
  then Ok (data m i j)
  else Err out_of_bounds.

(** A loop over the elements of a container, threading the loop state; a
    failing iteration ends it. *)
Fixpoint for_each {A S} (xs : list A) (body : A -> S -> result S) (s : S)
  : result S :=
  match xs with
  | [] => Ok s
  | x :: xs' => s' ← body x s; for_each xs' body s'
  end.

(** [for (int i = 0; i < n; ++i)]. *)
Definition for_range {S} (n : Z) (body : Z -> S -> result S) (s : S)
  : result S :=
  for_each (seqZ 0 n) body s.

(** ** Localizer: thresholding the correlation surface (main, l.242-249) *)

Definition locate_cell (res : Mat float_val) (threshold : float_val)
    (row col : Z) (loc : list Point) : result (list Point) :=
  s ← mat_at res row col;
  Ok (if fge s threshold then loc ++ [mkPoint col row] else loc).

Definition locate (res : Mat float_val) (threshold : float_val)
  : result (list Point) :=
  for_range (rows res)
    (fun row loc => for_range (cols res) (locate_cell res threshold row) loc)
    [].

(** The cells of one row that meet the threshold, left to right, and the
    cells of the surface that do, row by row: what the scan is to collect. *)
Definition row_hits (res : Mat float_val) (threshold : float_val) (row : Z)
  : list Point :=
  mjoin ((fun col => if fge (data res row col) threshold
                     then [mkPoint col row] else []) <$> seqZ 0 (cols res)).

Definition hits (res : Mat float_val) (threshold : float_val) : list Point :=
  mjoin (row_hits res threshold <$> seqZ 0 (rows res)).

(** ** MatchDeduplicator (main, l.251-265) *)

(** What the loop draws for an accepted candidate: the rectangle, and the
    label with the two numbers it prints and the place it is put. *)
Record Detection : Type := mkDetection {
  box_tl : Point;
  box_br : Point;
  label_numbers : Z * Z;
  label_at : Point
}.

Definition primary (vertical : bool) (pt : Point) : Z :=
  if vertical then px pt else py pt.

Definition draw (win pt : Point) : Detection :=
  {| box_tl := mkPoint (px pt) (py pt);
     box_br := mkPoint (px pt + px win) (py pt + py win);
     label_numbers := (px pt + px win, py pt + py win);
     label_at := mkPoint (px pt) (py pt + py win + 70) |}.

(** The loop over [loc], with the rectangles drawn so far and [temp]. *)
Fixpoint dedup_loop (vertical : bool) (win : Point) (loc : list Point)
    (drawn : list Detection) (temp : Z) : list Detection * Z :=
  match loc with
  | [] => (drawn, temp)
  | pt :: rest =>
      let unique := primary vertical pt in
      if 7 <? Z.abs (unique - temp)
      then dedup_loop vertical win rest (drawn ++ [draw win pt]) unique
      else dedup_loop vertical win rest drawn temp
  end.

(** [int unique, temp = 0;] then the loop. *)
Definition dedup (vertical : bool) (win : Point) (loc : list Point)
  : list Detection * Z :=
  dedup_loop vertical win loc [] 0.

(** The candidates the loop accepts when it starts with [temp], and the
    value of [temp] when it ends. *)
Fixpoint accepted (vertical : bool) (loc : list Point) (temp : Z)
  : list Point :=
  match loc with
  | [] => []
  | pt :: rest =>
      if 7 <? Z.abs (primary vertical pt - temp)
      then pt :: accepted vertical rest (primary vertical pt)
      else accepted vertical rest temp
  end.

Fixpoint last_accepted (vertical : bool) (loc : list Point) (temp : Z) : Z :=
  match loc with
  | [] => temp
  | pt :: rest =>
      if 7 <? Z.abs (primary vertical pt - temp)
      then last_accepted vertical rest (primary vertical pt)
      else last_accepted vertical rest temp
  end.

(** Each point is more than 7 away from the one before it, the first from
    [temp]. *)
Fixpoint chain (vertical : bool) (temp : Z) (pts : list Point) : Prop :=
  match pts with
  | [] => True
  | p :: rest =>
      7 < Z.abs (primary vertical p - temp) /\
      chain vertical (primary vertical p) rest
  end.

(** The values of [unique - temp] the loop computes, in order. *)
Fixpoint differences (vertical : bool) (loc : list Point) (temp : Z)
  : list Z :=
  match loc with
  | [] => []
  | pt :: rest =>
      (primary vertical pt - temp) ::
      differences vertical rest
        (if 7 <? Z.abs (primary vertical pt - temp)
         then primary vertical pt else temp)
  end.


(** [if(init_values.reverse)reverse(loc.begin(), loc.end());] *)
Definition traversal (rev : bool) (loc : list Point) : list Point :=
  if rev then List.rev loc else loc.

(** [if(temp==0)cout << "Palette not found!"]. *)
Definition not_found (temp : Z) : bool := temp =? 0.

(** ** The settings struct and the program state *)

(** The anonymous struct behind [init_values]. *)
Record Config : Type := mkConfig {
  n_clusters : Z;
  resize : Z;
  win_w : Z;
  win_h : Z;
  color_w : Z;
  color_h : Z;
  colors : Z;
  path : string;
  threshold : float_val;
  vertical : bool;
  reverse : bool
}.

(** The [double] written [0.99] in the source. *)
Definition threshold_default : float_val :=
  FNum (4458563631096791 # 4503599627370496).

(** The member initialisers; [colors] has none and the struct is a global,
    so it starts at zero. *)
Definition defaults : Config :=
  {| n_clusters := 6; resize := 120; win_w := 512; win_h := 512;
     color_w := 128; color_h := 139; colors := 0; path := "../dataset/";
     threshold := threshold_default; vertical := true; reverse := true |}.

Definition set_n_clusters (v : Z) (c : Config) : Config :=
  mkConfig v (resize c) (win_w c) (win_h c) (color_w c) (color_h c)
    (colors c) (path c) (threshold c) (vertical c) (reverse c).
Definition set_resize (v : Z) (c : Config) : Config :=
  mkConfig (n_clusters c) v (win_w c) (win_h c) (color_w c) (color_h c)
    (colors c) (path c) (threshold c) (vertical c) (reverse c).
Definition set_win_w (v : Z) (c : Config) : Config :=
  mkConfig (n_clusters c) (resize c) v (win_h c) (color_w c) (color_h c)
    (colors c) (path c) (threshold c) (vertical c) (reverse c).
Definition set_win_h (v : Z) (c : Config) : Config :=
  mkConfig (n_clusters c) (resize c) (win_w c) v (color_w c) (color_h c)
    (colors c) (path c) (threshold c) (vertical c) (reverse c).
Definition set_color_w (v : Z) (c : Config) : Config :=
  mkConfig (n_clusters c) (resize c) (win_w c) (win_h c) v (color_h c)
    (colors c) (path c) (threshold c) (vertical c) (reverse c).
Definition set_color_h (v : Z) (c : Config) : Config :=
  mkConfig (n_clusters c) (resize c) (win_w c) (win_h c) (color_w c) v
    (colors c) (path c) (threshold c) (vertical c) (reverse c).
Definition set_colors (v : Z) (c : Config) : Config :=
  mkConfig (n_clusters c) (resize c) (win_w c) (win_h c) (color_w c)
    (color_h c) v (path c) (threshold c) (vertical c) (reverse c).
Definition set_path (v : string) (c : Config) : Config :=
  mkConfig (n_clusters c) (resize c) (win_w c) (win_h c) (color_w c)
    (color_h c) (colors c) v (threshold c) (vertical c) (reverse c).
Definition set_threshold (v : float_val) (c : Config) : Config :=
  mkConfig (n_clusters c) (resize c) (win_w c) (win_h c) (color_w c)
    (color_h c) (colors c) (path c) v (vertical c) (reverse c).
Definition set_vertical (v : bool) (c : Config) : Config :=
  mkConfig (n_clusters c) (resize c) (win_w c) (win_h c) (color_w c)
    (color_h c) (colors c) (path c) (threshold c) v (reverse c).
Definition set_reverse (v : bool) (c : Config) : Config :=
  mkConfig (n_clusters c) (resize c) (win_w c) (win_h c) (color_w c)
    (color_h c) (colors c) (path c) (threshold c) (vertical c) v.

(** What is sent to [cout], item by item. *)
Inductive out_item : Type :=
  | Text (s : string)
  | IntVal (z : Z)
  | DoubleVal (d : float_val)
  | BoolVal (b : bool)
  | Endl.

(** What [imshow] is given: the strip, or the source image with what was
    drawn on it. *)
Inductive picture : Type :=
  | Strip (model : Mat Vec3b)
  | Annotated (drawn : list Detection).

(** A picture without a pixel.  The source image is shown only when it is
    not empty. *)
Definition picture_empty (p : picture) : bool :=
  match p with
  | Strip model => (rows model <=? 0) || (cols model <=? 0)
  | Annotated _ => false
  end.

(** A window: its name, the size [resizeWindow] gave it, its picture. *)
Record Window : Type := mkWindow {
  window_name : string;
  window_size : Z * Z;
  window_picture : picture
}.

(** The state a run can observe: the global struct, what was printed, and
    the windows shown. *)
Record World : Type := mkWorld {
  init_values : Config;
  cout : list out_item;
  shown : list Window
}.

(** Computations over the program state.  A failure keeps the state reached:
    what was assigned before an exception stays assigned. *)
Definition M (A : Type) : Type := World -> result A * World.

#[global] Instance M_ret : MRet M := fun A a w => (Ok a, w).
#[global] Instance M_bind : MBind M := fun A B f m w =>
  match m w with
  | (Ok a, w') => f a w'
  | (Err e, w') => (Err e, w')
  end.

Definition lift {A} (r : result A) : M A := fun w => (r, w).
Definition get_cfg : M Config := fun w => (Ok (init_values w), w).
Definition modify_cfg (f : Config -> Config) : M unit := fun w =>
  (Ok tt, mkWorld (f (init_values w)) (cout w) (shown w)).
Definition print (items : list out_item) : M unit := fun w =>
  (Ok tt, mkWorld (init_values w) (cout w ++ items) (shown w)).
(** [namedWindow], [resizeWindow] and [imshow] for one window.  [imshow]
    refuses a picture without a pixel with a [cv::Exception]. *)
Definition imshow (name : string) (size : Z * Z) (p : picture) : M unit :=
  fun w =>
  if picture_empty p then (Err (Exception "cv::Exception"), w)
  else
    (Ok tt,
     mkWorld (init_values w) (cout w) (shown w ++ [mkWindow name size p])).

(** What [operator<<] writes for a [filesystem::path]: the path between
    double quotes, a backslash before each double quote and each backslash
    of the path. *)
Definition DQUOTE : ascii := "034".
Definition BACKSLASH : ascii := "092".

Fixpoint escaped (s : string) : string :=
  match s with
  | EmptyString => EmptyString
  | String c s' =>
      if Ascii.eqb c DQUOTE || Ascii.eqb c BACKSLASH
      then String BACKSLASH (String c (escaped s'))
      else String c (escaped s')
  end.

Definition quoted (s : string) : string :=
  String DQUOTE (escaped s +:+ String DQUOTE EmptyString).

(** [try { body } catch(const exception&) { handler }]: undefined behaviour
    is not an exception and passes through. *)
Definition try_catch (body handler : M unit) : M unit := fun w =>
  match body w with
  | (Err (Exception _), w') => handler w'
  | r => r
  end.

(** ** read_settings (l.53-103) *)

(** [std::isspace] in the C locale. *)
Definition is_space (c : ascii) : bool :=
  let n := nat_of_ascii c in
  (n =? 32)%nat || ((9 <=? n)%nat && (n <=? 13)%nat).

Definition digit_of (c : ascii) : option Z :=
  let n := Z.of_nat (nat_of_ascii c) in
  if (48 <=? n) && (n <=? 57) then Some (n - 48) else None.

Fixpoint skip_space (s : string) : string :=
  match s with
  | String c s' => if is_space c then skip_space s' else s
  | EmptyString => s
  end.

(** The decimal digits at the front of [s]; [None] when there is none. *)
Fixpoint read_digits (s : string) (acc : Z) (seen : bool) : option Z :=
  match s with
  | String c s' =>
      match digit_of c with
      | Some d => read_digits s' (10 * acc + d) true
      | None => if seen then Some acc else None
      end
  | EmptyString => if seen then Some acc else None
  end.

(** [std::stoi(s)]: leading white space, an optional sign, decimal digits;
    what follows the digits is ignored.  No digits: [invalid_argument]; a
    value that is no [int]: [out_of_range]. *)
Definition stoi (s : string) : result Z :=
  let s1 := skip_space s in
  let '(negative, s2) :=
    match s1 with
    | String "-" r => (true, r)
    | String "+" r => (false, r)
    | _ => (false, s1)
    end in
  match read_digits s2 0 false with
  | None => Err (Exception "invalid_argument")
  | Some v =>
      let v' := if negative : bool then - v else v in
      if (INT_MIN <=? v') && (v' <=? INT_MAX) then Ok v'
      else Err (Exception "out_of_range")
  end.

(** [std::ifstream]: the characters not yet read and the two state bits that
    matter. *)
Record ifstream : Type := mkStream {
  unread : string;
  eofbit : bool;
  failbit : bool
}.

(** [ifstream Settings("../settings.txt")]; no content: the file could not
    be opened. *)
Definition ifstream_open (file : option string) : ifstream :=
  match file with
  | Some content => mkStream content false false
  | None => mkStream "" false true
  end.

(** The characters up to the first line feed, and what follows it when there
    is one. *)
Fixpoint split_line (s : string) : string * option string :=
  match s with
  | EmptyString => (EmptyString, None)
  | String c s' =>
      if Ascii.eqb c "010" then (EmptyString, Some s')
      else let '(l, r) := split_line s' in (String c l, r)
  end.

(** [getline(Settings, setting)].  On a stream that is no longer good the
    string is left as it is; otherwise it is replaced by the next line, the
    end of the file sets [eofbit], and extracting nothing sets [failbit]. *)
Definition getline (st : ifstream) (setting : string) : ifstream * string :=
  if eofbit st || failbit st then (mkStream (unread st) (eofbit st) true, setting)
  else
    match split_line (unread st) with
    | (line, Some r) => (mkStream r false false, line)
    | (line, None) =>
        (mkStream "" true (if line is EmptyString then true else false), line)
    end.

Section Settings.

(** [std::stod] belongs to the C++ library; its conversion is a parameter,
    [None] standing for the exception it throws on a string it cannot
    convert. *)
Variable stod : string -> option float_val.

Definition stod_result (s : string) : result float_val :=
  match stod s with
  | Some v => Ok v
  | None => Err (Exception "invalid_argument")
  end.

(** The body of the [try] block. *)
Definition read_settings_body (file : option string) : M unit :=
  let Settings := ifstream_open file in
  let setting := EmptyString in

  let '(Settings, setting) := getline Settings setting in
  v ← lift (stoi setting); modify_cfg (set_n_clusters v);;
  c ← get_cfg; print [Text "n_c	: "; IntVal (n_clusters c); Endl];;

  let '(Settings, setting) := getline Settings setting in
  v ← lift (stoi setting); modify_cfg (set_resize v);;
  c ← get_cfg; print [Text "rs	: "; IntVal (resize c); Endl];;

  let '(Settings, setting) := getline Settings setting in
  v ← lift (stoi setting); modify_cfg (set_win_w v);;
  c ← get_cfg; print [Text "win_w	: "; IntVal (win_w c); Endl];;

  let '(Settings, setting) := getline Settings setting in
  v ← lift (stoi setting); modify_cfg (set_win_h v);;
  c ← get_cfg; print [Text "win_h	: "; IntVal (win_h c); Endl];;

  let '(Settings, setting) := getline Settings setting in
  v ← lift (stoi setting); modify_cfg (set_color_w v);;
  c ← get_cfg; print [Text "color_w	: "; IntVal (color_w c); Endl];;

  let '(Settings, setting) := getline Settings setting in
  v ← lift (stoi setting); modify_cfg (set_color_h v);;
  c ← get_cfg; print [Text "color_h	: "; IntVal (color_h c); Endl];;

  let '(Settings, setting) := getline Settings setting in
  modify_cfg (set_path setting);;
  c ← get_cfg; print [Text "path	: "; Text (path c); Endl];;

  let '(Settings, setting) := getline Settings setting in
  v ← lift (stod_result setting); modify_cfg (set_threshold v);;
  c ← get_cfg; print [Text "thr	: "; DoubleVal (threshold c); Endl];;

  let '(Settings, setting) := getline Settings setting in
  v ← lift (stoi setting); modify_cfg (set_vertical (v =? 1));;
  c ← get_cfg; print [Text "ver	: "; BoolVal (vertical c); Endl];;

  let '(Settings, setting) := getline Settings setting in
  v ← lift (stoi setting); modify_cfg (set_reverse (v =? 1));;
  c ← get_cfg; print [Text "rev	: "; BoolVal (reverse c); Endl];;

  mret tt.

Definition settings_diagnostic : list out_item :=
  [Text "Error reading the settings file!"; Endl].

Definition read_settings (file : option string) : M unit :=
  try_catch (read_settings_body file) (print settings_diagnostic).

End Settings.

(** The ten settings, in the order the file gives them. *)
Inductive field : Type :=
  | F_n_clusters | F_resize | F_win_w | F_win_h | F_color_w | F_color_h
  | F_path | F_threshold | F_vertical | F_reverse.

Definition all_fields : list field :=
  [F_n_clusters; F_resize; F_win_w; F_win_h; F_color_w; F_color_h;
   F_path; F_threshold; F_vertical; F_reverse].

Definition field_position (f : field) : nat :=
  match f with
  | F_n_clusters => 0 | F_resize => 1 | F_win_w => 2 | F_win_h => 3
  | F_color_w => 4 | F_color_h => 5 | F_path => 6 | F_threshold => 7
  | F_vertical => 8 | F_reverse => 9
  end.

(** Two structs agree on a setting. *)
Definition same_field (f : field) (c d : Config) : Prop :=
  match f with
  | F_n_clusters => n_clusters c = n_clusters d
  | F_resize => resize c = resize d
  | F_win_w => win_w c = win_w d
  | F_win_h => win_h c = win_h d
  | F_color_w => color_w c = color_w d
  | F_color_h => color_h c = color_h d
  | F_path => path c = path d
  | F_threshold => threshold c = threshold d
  | F_vertical => vertical c = vertical d
  | F_reverse => reverse c = reverse d
  end.

(** The line [read_settings] prints after it has assigned a setting. *)
Definition echo (c : Config) (f : field) : list out_item :=
  match f with
  | F_n_clusters => [Text "n_c	: "; IntVal (n_clusters c); Endl]
  | F_resize => [Text "rs	: "; IntVal (resize c); Endl]
  | F_win_w => [Text "win_w	: "; IntVal (win_w c); Endl]
  | F_win_h => [Text "win_h	: "; IntVal (win_h c); Endl]
  | F_color_w => [Text "color_w	: "; IntVal (color_w c); Endl]
  | F_color_h => [Text "color_h	: "; IntVal (color_h c); Endl]
  | F_path => [Text "path	: "; Text (path c); Endl]
  | F_threshold => [Text "thr	: "; DoubleVal (threshold c); Endl]
  | F_vertical => [Text "ver	: "; BoolVal (vertical c); Endl]
  | F_reverse => [Text "rev	: "; BoolVal (reverse c); Endl]
  end.

(** The lines printed for the first [k] settings. *)
Definition echoes (k : nat) (c : Config) : list out_item :=
  mjoin (echo c <$> take k all_fields).

(** What [setting] holds after each of the first [n] calls of [getline] on
    the stream [st], when it held [setting] before them. *)
Fixpoint lines_read (n : nat) (st : ifstream) (setting : string)
  : list string :=
  match n with
  | O => []
  | S n' =>
      let '(st', setting') := getline st setting in
      setting' :: lines_read n' st' setting'
  end.

(** The ten strings [read_settings] converts, in order. *)
Definition settings_lines (file : option string) : list string :=
  lines_read 10 (ifstream_open file) EmptyString.

(** Setting [f] of [c] is what the conversion of [line] gives. *)
Definition assigned_from (stod : string -> option float_val) (f : field)
    (line : string) (c : Config) : Prop :=
  match f with
  | F_n_clusters => stoi line = Ok (n_clusters c)
  | F_resize => stoi line = Ok (resize c)
  | F_win_w => stoi line = Ok (win_w c)
  | F_win_h => stoi line = Ok (win_h c)
  | F_color_w => stoi line = Ok (color_w c)
  | F_color_h => stoi line = Ok (color_h c)
  | F_path => path c = line
  | F_threshold => stod line = Some (threshold c)
  | F_vertical => exists v, stoi line = Ok v /\ vertical c = (v =? 1)
  | F_reverse => exists v, stoi line = Ok v /\ reverse c = (v =? 1)
  end.

(** The conversion of [line] for setting [f] throws. *)
Definition refused (stod : string -> option float_val) (f : field)
    (line : string) : Prop :=
  match f with
  | F_path => False
  | F_threshold => stod line = None
  | _ => exists what, stoi line = Err (Exception what)
  end.

(** A computation that leaves the global struct as it found it. *)
Definition preserves_cfg {A} (m : M A) : Prop :=
  forall w, init_values (m w).2 = init_values w.

(** ** setwin (l.110-121) *)

Definition setwin : M Point :=
  c ← get_cfg;
  if vertical c then
    y ← lift (int_result (color_h c * colors c));
    mret {| px := color_w c; py := y |}
  else
    x ← lift (int_result (color_h c * colors c));
    mret {| px := x; py := color_w c |}.

(** ** create_palette (l.130-161) *)

(** [Mat(rows, cols, CV_8UC3, s)]: OpenCV rejects a negative dimension with
    a [cv::Exception]; every pixel holds the scalar, each channel converted
    to a byte. *)
Definition new_mat (r c : Z) (s : Scalar) : result (Mat Vec3b) :=
  if (r <? 0) || (c <? 0) then Err (Exception "cv::Exception")
  else Ok (mkMat r c (fun _ _ => pixel_of s)).

Definition empty_mat : Mat Vec3b := mkMat 0 0 (fun _ _ => (0, 0, 0)).

Definition total_rows {A} (ms : list (Mat A)) : Z :=
  foldr (fun m acc => rows m + acc) 0 ms.
Definition total_cols {A} (ms : list (Mat A)) : Z :=
  foldr (fun m acc => cols m + acc) 0 ms.

Fixpoint vstack {A} (ms : list (Mat A)) (rest : Z -> Z -> A) (i j : Z) : A :=
  match ms with
  | [] => rest i j
  | m :: ms' => if i <? rows m then data m i j else vstack ms' rest (i - rows m) j
  end.

Fixpoint hstack {A} (ms : list (Mat A)) (rest : Z -> Z -> A) (i j : Z) : A :=
  match ms with
  | [] => rest i j
  | m :: ms' => if j <? cols m then data m i j else hstack ms' rest i (j - cols m)
  end.

(** [cv::vconcat]: nothing to stack gives the empty matrix; the parts must
    agree on their width.  The height of the result is an [int]: parts whose
    heights add up to more than [INT_MAX] cannot be stacked, and the call
    ends in a [cv::Exception]. *)
Definition vconcat (ms : list (Mat Vec3b)) : result (Mat Vec3b) :=
  match ms with
  | [] => Ok empty_mat
  | m0 :: _ =>
      if forallb (fun m => cols m =? cols m0) ms && (total_rows ms <=? INT_MAX)
      then Ok (mkMat (total_rows ms) (cols m0) (vstack ms (data m0)))
      else Err (Exception "cv::Exception")
  end.

(** [cv::hconcat]: the parts must agree on their height, and their widths
    add up to an [int]. *)
Definition hconcat (ms : list (Mat Vec3b)) : result (Mat Vec3b) :=
  match ms with
  | [] => Ok empty_mat
  | m0 :: _ =>
      if forallb (fun m => rows m =? rows m0) ms && (total_cols ms <=? INT_MAX)
      then Ok (mkMat (rows m0) (total_cols ms) (hstack ms (data m0)))
      else Err (Exception "cv::Exception")
  end.

(** The [int] [centers.rows-1] converted to [size_t] for the comparison with
    [cluster_idx]. *)
Definition SIZE_MOD : Z := 2 ^ 64.
Definition size_t_of_int (i : Z) : Z := i mod SIZE_MOD.

(** The [size_t] [cluster_idx] converted to the [int] that [Mat::at] takes. *)
Definition int_of_size_t (u : Z) : Z :=
  let r := u mod 2 ^ 32 in
  if r <? 2 ^ 31 then r else r - 2 ^ 32.

(** One turn of the loop: the three reads of row [cluster_idx], the cell,
    the [push_back]. *)
Definition palette_cell (x y : Z) (centers : Mat float_val)
    (cluster_idx : Z) (palette : list (Mat Vec3b))
  : result (list (Mat Vec3b)) :=
  c0 ← mat_at centers (int_of_size_t cluster_idx) 0;
  c1 ← mat_at centers (int_of_size_t cluster_idx) 1;
  c2 ← mat_at centers (int_of_size_t cluster_idx) 2;
  cluster_mat ← new_mat x y (c0, c1, c2);
  Ok (palette ++ [cluster_mat]).

(** [for (size_t cluster_idx = 0; cluster_idx < centers.rows-1; ++cluster_idx)] *)
Definition palette_cells (x y : Z) (centers : Mat float_val)
  : result (list (Mat Vec3b)) :=
  for_range (size_t_of_int (rows centers - 1)) (palette_cell x y centers) [].

(** The cell made from row [i]: [x] by [y], filled with the three values of
    the row, each converted to a byte. *)
Definition cell_of_row (x y : Z) (centers : Mat float_val) (i : Z)
  : Mat Vec3b :=
  mkMat x y
    (fun _ _ => pixel_of (data centers i 0, data centers i 1, data centers i 2)).

Definition create_palette (ver rev : bool) (centers : Mat float_val)
  : M (Mat Vec3b) :=
  c ← get_cfg;
  let '(x, y) := if ver then (color_h c, color_w c)
                 else (color_w c, color_h c) in
  palette ← lift (palette_cells x y centers);
  let palette := if rev then List.rev palette else palette in
  if ver then lift (vconcat palette) else lift (hconcat palette).

(** A matrix of the given height and width. *)
Definition sized {A} (x y : Z) (m : Mat A) : Prop := rows m = x /\ cols m = y.

(** ** bincount (l.169-178) *)

(** [*max_element(first, last)]: on an empty range the iterator returned is
    [last], and reading through it is undefined. *)
Definition max_element (labels : list Z) : result Z :=
  match labels with
  | [] => Err (Undefined "dereference of end()")
  | l :: ls => Ok (foldl Z.max l ls)
  end.

(** [vector<int> counts(n, 0)]: a negative [n] becomes a size no allocation
    can serve. *)
Definition new_vector (n : Z) : result (list Z) :=
  if n <? 0 then Err (Exception "length_error")
  else Ok (replicate (Z.to_nat n) 0).

(** [counts[label]++]: an index outside the vector is undefined. *)
Definition increment (label : Z) (counts : list Z) : result (list Z) :=
  if (0 <=? label) && (label <? Z.of_nat (length counts))
  then
    match counts !! Z.to_nat label with
    | Some c => Ok (<[Z.to_nat label := c + 1]> counts)
    | None => Err (Undefined "vector index out of range")
    end
  else Err (Undefined "vector index out of range").

Definition bincount (labels : list Z) : result (list Z) :=
  m ← max_element labels;
  max_value ← int_result (m + 1);
  counts ← new_vector max_value;
  for_each labels increment counts.

(** How often a label occurs, and the sum of a vector of counts. *)
Definition occurrences (i : Z) (labels : list Z) : Z :=
  Z.of_nat (count_occ Z.eq_dec labels i).

Definition sum_Z (l : list Z) : Z := foldr Z.add 0 l.

(** ** ColorQuantizer: the ordering step (main, l.228) *)

(** The order [cv::sort] arranges a column in.  It is the comparison of the
    values; NaNs, which no cluster centre is, are put last. *)
Definition sort_le (a b : float_val) : bool :=
  is_nan b || (negb (is_nan a) && fle a b).

Definition sorts_before (a b : float_val) : Prop := sort_le a b = true.

#[global] Instance sorts_before_dec : RelDecision sorts_before.
Proof. intros a b. unfold sorts_before. apply _. Defined.

(** [a <= b] holds. *)
Definition ascending (a b : float_val) : Prop := fle a b = true.

Definition column {A} (m : Mat A) (j : Z) : list A :=
  (fun i => data m i j) <$> seqZ 0 (rows m).

(** [cv::sort(m, m, SORT_EVERY_COLUMN | SORT_ASCENDING)]: every column is
    sorted on its own. *)
Definition sort_every_column (m : Mat float_val) : Mat float_val :=
  mkMat (rows m) (cols m)
    (fun i j => default FNaN (merge_sort sorts_before (column m j) !! Z.to_nat i)).

(** ** main (l.188-277) *)

(** One directory entry, with what the library calls made for it return,
    each call giving its result or the exception it throws:
    - [image_empty]: whether [imread] gave an empty image;
    - [GaussianBlur]: the smoothing of the image (l.210);
    - [cv_resize r]: [resize] to [r] by [r] and the first [reshape]
      (l.214-215);
    - [kmeans n K]: the second [reshape], to [n] rows, [convertTo] and
      [kmeans] for [K] clusters (l.216-226): the labels and the centres;
    - [matchTemplate model]: the surface for the smoothed image and the
      strip (l.239). *)
Record Entry : Type := mkEntry {
  entry_path : string;
  image_empty : bool;
  GaussianBlur : result unit;
  cv_resize : Z -> result unit;
  kmeans : Z -> Z -> result (list Z * Mat float_val);
  matchTemplate : Mat Vec3b -> result (Mat float_val)
}.

(** The body of the loop over the directory; [Some code] is a [return]. *)
Definition process_image (win : Point) (e : Entry) : M (option Z) :=
  print [Text (quoted (entry_path e)); Endl];;
  if image_empty e then
    print [Text "Could not read the image: "; Text (quoted (entry_path e));
           Endl];;
    mret (Some 1)
  else
    lift (GaussianBlur e);;
    c ← get_cfg;
    lift (cv_resize e (resize c));;
    c ← get_cfg;
    n ← lift (int_result (resize c * resize c));
    c ← get_cfg;
    clustered ← lift (kmeans e n (n_clusters c));
    let '(labels, centers) := clustered in
    let centers := sort_every_column centers in
    cluster_sizes ← lift (bincount labels);
    c ← get_cfg;
    model ← create_palette (vertical c) (reverse c) centers;
    imshow "palette" (px win, py win) (Strip model);;
    res ← lift (matchTemplate e model);
    c ← get_cfg;
    loc ← lift (locate res (threshold c));
    c ← get_cfg;
    let loc := traversal (reverse c) loc in
    let '(drawn, temp) := dedup (vertical c) win loc in
    (if not_found temp then print [Text "Palette not found!"; Endl]
     else mret tt);;
    c ← get_cfg;
    imshow (entry_path e) (win_w c, win_h c) (Annotated drawn);;
    mret None.

Fixpoint main_loop (win : Point) (entries : list Entry) : M Z :=
  match entries with
  | [] => mret 0
  | e :: es =>
      r ← process_image win e;
      match r with
      | Some code => mret code
      | None => main_loop win es
      end
  end.

Section Main.

Variable stod : string -> option float_val.

(** The start of [main]: settings, the derived [colors], the command line. *)
Definition main_init (settings : option string) (argv : list string) : M unit :=
  read_settings stod settings;;
  modify_cfg (fun c => set_colors (n_clusters c - 1) c);;
  match argv with
  | _ :: arg1 :: _ =>
      print [IntVal (Z.of_nat (length argv)); Text " "; Text arg1; Endl];;
      modify_cfg (set_path arg1)
  | _ => mret tt
  end.

(** [dir] is the file system: the entries of a directory, when it can be
    listed. *)
Definition main (settings : option string) (argv : list string)
    (dir : string -> option (list Entry)) : M Z :=
  main_init settings argv;;
  win ← setwin;
  c ← get_cfg;
  match dir (path c) with
  | None => lift (Err (Exception "filesystem_error"))
  | Some entries => main_loop win entries
  end.

End Main.

(** ** Sample inputs *)

(** A surface with three cells at 1: two in the first row, at columns 10 and
    20, and one in the second row, again at column 10. *)
Definition res_dup : Mat float_val :=
  mkMat 2 21 (fun r c =>
    if ((r =? 0) && ((c =? 10) || (c =? 20))) || ((r =? 1) && (c =? 10))
    then FNum 1 else FNum 0).

(** A surface whose first row scores 1 in columns 0 to 8 and 0 elsewhere:
    what a swatch at the left border, its cells a little wider than the
    strip, gives. *)
Definition res_border : Mat float_val :=
  mkMat 3 40 (fun r c => if (r =? 0) && (c <=? 8) then FNum 1 else FNum 0).

(** Six centres with three channels each. *)
Definition sample_centers : Mat float_val :=
  mkMat 6 3 (fun r c => FNum (inject_Z (40 * r + c))).

Definition border_entry : Entry :=
  {| entry_path := "border.png";
     image_empty := false;
     GaussianBlur := Ok tt;
     cv_resize := fun _ => Ok tt;
     kmeans := fun _ _ => Ok ([0; 1; 2; 3; 4; 5], sample_centers);
     matchTemplate := fun _ => Ok res_border |}.

(** The rows of [sample_centers] in another order in every column, and an
    image whose clustering gives them. *)
Definition shuffled_centers : Mat float_val :=
  mkMat 6 3 (fun r c => FNum (inject_Z (40 * ((5 * r + 2 * c + 3) mod 6) + c))).

Definition shuffled_entry : Entry :=
  {| entry_path := "shuffled.png";
     image_empty := false;
     GaussianBlur := Ok tt;
     cv_resize := fun _ => Ok tt;
     kmeans := fun _ _ => Ok ([0; 1; 2; 3; 4; 5], shuffled_centers);
     matchTemplate := fun _ => Ok res_border |}.

(** The state when the program starts, and the state after [main]'s start on
    the compiled-in settings. *)
Definition start : World := mkWorld defaults [] [].
Definition ready : World := mkWorld (set_colors 5 defaults) [] [].

(** A conversion that refuses every string. *)
Definition stod_none (s : string) : option float_val := None.

(** A settings file of two lines: [8] and [abc]. *)
Definition two_lines : string :=
  String "8" (String "010" (String "a" (String "b" (String "c"
    (String "010" EmptyString))))).

(** ** Vocabulary of the further properties *)

(** [p] is scanned before [q]: an earlier row, or the same row and an
    earlier column. *)
Definition scan_before (p q : Point) : Prop :=
  py p < py q \/ (py p = py q /\ px p < px q).


(** The pixel made from the three channel values of row [k] of the
    centres. *)
Definition pixel_of_row (centers : Mat float_val) (k : Z) : Vec3b :=
  pixel_of (data centers k 0, data centers k 1, data centers k 2).

(** The line feed, a string without one, and the content of a file made of
    lines, each ended by a line feed, and of what follows them. *)
Definition LF : ascii := "010".

Fixpoint no_newline (s : string) : bool :=
  match s with
  | EmptyString => true
  | String c s' => negb (Ascii.eqb c LF) && no_newline s'
  end.

Definition file_of (lines : list string) (rest : string) : string :=
  foldr (fun l acc => l +:+ String LF acc) rest lines.

(** What is printed for an image that cannot be read, and for one that can:
    its path, and the message when [temp] is 0. *)
Definition unreadable_output (e : Entry) : list out_item :=
  [Text (quoted (entry_path e)); Endl;
   Text "Could not read the image: "; Text (quoted (entry_path e)); Endl].

Definition image_output (e : Entry) (temp : Z) : list out_item :=
  [Text (quoted (entry_path e)); Endl] ++
  (if not_found temp then [Text "Palette not found!"; Endl] else []).

(** The directory [main] lists: the first argument of the command line when
    there is one, else the path of the settings. *)
Definition listed_directory (argv : list string) (c : Config) : string :=
  match argv with
  | _ :: arg1 :: _ => arg1
  | _ => path c
  end.

(** A computation that shows no window. *)
Definition shows_nothing {A} (m : M A) : Prop :=
  forall w, shown (m w).2 = shown w.

(** ** Further sample inputs *)

(** A directory with one image that can be read and one that cannot. *)
Definition unreadable_entry : Entry :=
  {| entry_path := "broken.png";
     image_empty := true;
     GaussianBlur := Err (Exception "cv::Exception");
     cv_resize := fun _ => Err (Exception "cv::Exception");
     kmeans := fun _ _ => Err (Exception "cv::Exception");
     matchTemplate := fun _ => Err (Exception "cv::Exception") |}.

Definition sample_dir (p : string) : option (list Entry) :=
  if String.eqb p "imgs" then Some [border_entry; unreadable_entry; border_entry]
  else if String.eqb p "../dataset/" then Some [border_entry]
  else if String.eqb p "empty" then Some []
  else None.

(** A conversion that accepts the text [0.99] only. *)
Definition sample_stod (s : string) : option float_val :=
  if String.eqb s "0.99" then Some threshold_default else None.

(** The ten lines of a settings file, and the file made of them. *)
Definition sample_lines : list string :=
  ["8"; "100"; "640"; "480"; "64"; "70"; "imgs"; "0.99"; "0"; "1"].

Definition sample_settings : string := file_of sample_lines "".

(** Centres with one row, and with none. *)
Definition one_center : Mat float_val := mkMat 1 3 (fun _ _ => FNum 0).
Definition no_center : Mat float_val := mkMat 0 3 (fun _ _ => FNum 0).

(** * Properties *)

(** ** Loops *)

Lemma bind_Ok {A B} (a : A) (f : A -> result B) : (Ok a ≫= f) = f a.
Proof. reflexivity. Qed.

Lemma bind_Err {A B} (e : error) (f : A -> result B) : (Err e ≫= f) = Err e.
Proof. reflexivity. Qed.

Lemma Ok_inj {A} (a b : A) : Ok a = Ok b -> a = b.
Proof. by intros [= ->]. Qed.

Lemma for_each_app {A S} (xs ys : list A) (body : A -> S -> result S) s :
  for_each (xs ++ ys) body s = (s' ← for_each xs body s; for_each ys body s').
Proof.
  revert s. induction xs as [|x xs IH]; intros s; simpl; [done|].
  destruct (body x s) as [s'|e]; simpl; [apply IH | done].
Qed.

(** A loop whose every turn appends to the state collects what the turns
    append, in order. *)
Lemma for_each_collect {A B} (xs : list A) (body : A -> list B -> result (list B))
    (f : A -> list B) :
  (forall x acc, x ∈ xs -> body x acc = Ok (acc ++ f x)) ->
  forall acc, for_each xs body acc = Ok (acc ++ mjoin (f <$> xs)).
Proof.
  induction xs as [|x xs IH]; intros Hbody acc; simpl.
  - by rewrite app_nil_r.
  - rewrite Hbody by left. simpl. rewrite IH.
    + by rewrite app_assoc.
    + intros y acc' Hy. apply Hbody. by right.
Qed.

Lemma mat_at_in {A} (m : Mat A) i j :
  0 <= i < rows m -> 0 <= j < cols m -> mat_at m i j = Ok (data m i j).
Proof.
  intros Hi Hj. unfold mat_at.
  replace (0 <=? i) with true by (symmetry; apply Z.leb_le; lia).
  replace (i <? rows m) with true by (symmetry; apply Z.ltb_lt; lia).
  replace (0 <=? j) with true by (symmetry; apply Z.leb_le; lia).
  replace (j <? cols m) with true by (symmetry; apply Z.ltb_lt; lia).
  done.
Qed.

Lemma mat_at_out {A} (m : Mat A) i j :
  ¬ (0 <= i < rows m /\ 0 <= j < cols m) -> mat_at m i j = Err out_of_bounds.
Proof.
  intros H. unfold mat_at.
  destruct (0 <=? i) eqn:E1, (i <? rows m) eqn:E2, (0 <=? j) eqn:E3,
    (j <? cols m) eqn:E4; simpl; try done.
  exfalso. apply H. lia.
Qed.

(** ** The state monad *)

Lemma run_bind {A B} (m : M A) (f : A -> M B) w :
  (m ≫= f) w =
  match m w with
  | (Ok a, w') => f a w'
  | (Err e, w') => (Err e, w')
  end.
Proof. reflexivity. Qed.

Lemma run_lift {A} (r : result A) w : lift r w = (r, w).
Proof. reflexivity. Qed.

(** How each primitive of [M] runs when something follows it. *)
Lemma run_lift_Ok {A B} (a : A) (f : A -> M B) w :
  (lift (Ok a) ≫= f) w = f a w.
Proof. reflexivity. Qed.

Lemma run_lift_Err {A B} (e : error) (f : A -> M B) w :
  (lift (Err e) ≫= f) w = (Err e, w).
Proof. reflexivity. Qed.

Lemma run_get_cfg {B} (f : Config -> M B) w :
  (get_cfg ≫= f) w = f (init_values w) w.
Proof. reflexivity. Qed.

Lemma run_modify_cfg {B} (g : Config -> Config) (f : unit -> M B) w :
  (modify_cfg g ≫= f) w = f tt (mkWorld (g (init_values w)) (cout w) (shown w)).
Proof. reflexivity. Qed.

Lemma run_print {B} (items : list out_item) (f : unit -> M B) w :
  (print items ≫= f) w =
  f tt (mkWorld (init_values w) (cout w ++ items) (shown w)).
Proof. reflexivity. Qed.

Lemma run_ret {A} (a : A) w : (mret a : M A) w = (Ok a, w).
Proof. reflexivity. Qed.

Ltac run :=
  repeat first
    [ rewrite run_lift_Ok | rewrite run_lift_Err | rewrite run_get_cfg
    | rewrite run_modify_cfg | rewrite run_print | rewrite run_ret ];
  cbn [init_values cout shown].

(** ** read_settings *)

Lemma stoi_exception s e : stoi s = Err e -> exists what, e = Exception what.
Proof.
  unfold stoi. destruct (skip_space s) as [|c r]; simpl.
  - intros [= <-]. eauto.
  - destruct (match c with
              | "-"%char => (true, r)
              | "+"%char => (false, r)
              | _ => (false, String c r)
              end) as [negative s2].
    destruct (read_digits s2 0 false) as [v|]; [|intros [= <-]; eauto].
    destruct (_ && _); [done | intros [= <-]; eauto].
Qed.

(** What [stoi] returns is an [int]. *)
Lemma stoi_in_int s v : stoi s = Ok v -> in_int v.
Proof.
  unfold stoi. destruct (skip_space s) as [|c r]; simpl; [done|].
  destruct (match c with
            | "-"%char => (true, r)
            | "+"%char => (false, r)
            | _ => (false, String c r)
            end) as [negative s2].
  destruct (read_digits s2 0 false) as [d|]; [|done].
  destruct ((INT_MIN <=? _) && _) eqn:E; [|done].
  intros [= <-]. apply andb_true_iff in E as [E1 E2].
  apply Z.leb_le in E1, E2. done.
Qed.

Section SettingsProofs.

Variable stod : string -> option float_val.

Lemma stod_exception s e :
  stod_result stod s = Err e -> exists what, e = Exception what.
Proof. unfold stod_result. destruct (stod s); [done | intros [= <-]; eauto]. Qed.

Lemma stod_result_Ok s v : stod_result stod s = Ok v -> stod s = Some v.
Proof. unfold stod_result. destruct (stod s); [by intros [= ->] | done]. Qed.

Lemma stod_result_Err s e : stod_result stod s = Err e -> stod s = None.
Proof. unfold stod_result. by destruct (stod s). Qed.

Ltac next_line :=
  match goal with
  | |- context [getline ?st ?s] => destruct (getline st s) as [? ?]
  end;
  lazy beta iota zeta.

Ltac convert :=
  match goal with
  | |- context [lift (stoi ?s)] =>
      let E := fresh "E" in
      destruct (stoi s) as [?|?] eqn:E;
      [|destruct (stoi_exception _ _ E) as [? ->]]
  | |- context [lift (stod_result stod ?s)] =>
      let E := fresh "E" in
      destruct (stod_result stod s) as [?|?] eqn:E;
      [apply stod_result_Ok in E
      |destruct (stod_exception _ _ E) as [? ->]; apply stod_result_Err in E]
  end.

Ltac retained :=
  let f := fresh "f" in
  intros f; destruct f; cbn; intros; first [lia | reflexivity].

(** The settings before the failing one hold what their lines convert to. *)
Ltac assigned :=
  let f := fresh "f" in
  let line := fresh "line" in
  let Hk := fresh "Hk" in
  let Hl := fresh "Hl" in
  intros f line Hk Hl; destruct f; cbn in Hk; try lia;
  cbn in Hl; injection Hl as <-; cbn; eauto.

Ltac failed_at k fld :=
  right; eexists; exists k; split; [reflexivity|]; split; [lia|];
  split; [exists fld; eexists; split; [reflexivity|];
          split; [reflexivity | cbn; eauto]|];
  split; [assigned|];
  split; [retained|]; split; [reflexivity|];
  cbn; rewrite <- ?app_assoc; cbn; rewrite ?app_nil_r; reflexivity.

(** The [try] block either runs to its end, or stops at the first of the ten
    conversions that throws, having assigned and echoed the settings before
    it and nothing else. *)
Lemma read_settings_body_cases file w :
  let r := read_settings_body stod file w in
  r.1 = Ok tt \/
  exists what (k : nat),
    r.1 = Err (Exception what) /\ (k < 10)%nat /\
    (exists f line,
       field_position f = k /\ settings_lines file !! k = Some line /\
       refused stod f line) /\
    (forall f line,
       (field_position f < k)%nat ->
       settings_lines file !! field_position f = Some line ->
       assigned_from stod f line (init_values r.2)) /\
    (forall f, (k <= field_position f)%nat ->
               same_field f (init_values r.2) (init_values w)) /\
    colors (init_values r.2) = colors (init_values w) /\
    cout r.2 = cout w ++ echoes k (init_values r.2).
Proof.
  destruct w as [c out sh]. unfold read_settings_body, settings_lines.
  generalize (ifstream_open file). intros st. cbn [lines_read].
  next_line. convert; run; [|failed_at 0%nat F_n_clusters].
  next_line. convert; run; [|failed_at 1%nat F_resize].
  next_line. convert; run; [|failed_at 2%nat F_win_w].
  next_line. convert; run; [|failed_at 3%nat F_win_h].
  next_line. convert; run; [|failed_at 4%nat F_color_w].
  next_line. convert; run; [|failed_at 5%nat F_color_h].
  next_line. run.
  next_line. convert; run; [|failed_at 7%nat F_threshold].
  next_line. convert; run; [|failed_at 8%nat F_vertical].
  next_line. convert; run; [|failed_at 9%nat F_reverse].
  left. reflexivity.
Qed.

Lemma read_settings_returns file w : (read_settings stod file w).1 = Ok tt.
Proof.
  unfold read_settings, try_catch.
  destruct (read_settings_body_cases file w) as [H|(what & k & H & _)];
    destruct (read_settings_body stod file w) as [r w']; simpl in H; subst r;
    done.
Qed.

End SettingsProofs.

(** C6, amended: when the [try] block fails, [read_settings] still returns
    normally and the diagnostic is the last thing printed.  The conversion
    that failed is one of the ten, say the one at position [k]: the line
    read for it is refused.  Every setting before position [k] has been
    assigned from its line and keeps that value; the settings from position
    [k] on, and [colors], keep their compiled-in values; what was printed is
    the echo of the [k] settings before it followed by the diagnostic.  When
    the first conversion fails the whole struct keeps its compiled-in
    values. *)
Theorem read_settings_failure_keeps_later_defaults
    (stod : string -> option float_val) (file : option string) (w : World) :
  init_values w = defaults ->
  (exists e, (read_settings_body stod file w).1 = Err e) ->
  let w' := (read_settings stod file w).2 in
  (read_settings stod file w).1 = Ok tt /\
  exists k : nat,
    (k < 10)%nat /\
    (exists f line,
       field_position f = k /\ settings_lines file !! k = Some line /\
       refused stod f line) /\
    (forall f line,
       (field_position f < k)%nat ->
       settings_lines file !! field_position f = Some line ->
       assigned_from stod f line (init_values w')) /\
    (forall f, (k <= field_position f)%nat ->
               same_field f (init_values w') defaults) /\
    colors (init_values w') = colors defaults /\
    cout w' = cout w ++ echoes k (init_values w') ++ settings_diagnostic /\
    (k = 0%nat -> init_values w' = defaults).
Proof.
  intros Hinit [e He] w'. split; [apply read_settings_returns|].
  subst w'. unfold read_settings, try_catch.
  destruct (read_settings_body_cases stod file w)
    as [H|(what & k & H & Hk & Href & Hass & Hret & Hcol & Hout)];
    [rewrite H in He; discriminate|].
  destruct (read_settings_body stod file w) as [r w1].
  cbn [fst snd] in *. rewrite H in He. injection He as <-. subst r.
  cbn [print init_values cout snd].
  exists k. rewrite Hinit in *. split; [done|]. split; [done|].
  split; [done|]. split; [done|].
  split; [done|]. split; [by rewrite Hout, <- app_assoc|].
  intros ->. destruct (init_values w1) as [a1 a2 a3 a4 a5 a6 a7 a8 a9 a10 a11].
  pose proof (Hret F_n_clusters ltac:(cbn; lia)) as H1.
  pose proof (Hret F_resize ltac:(cbn; lia)) as H2.
  pose proof (Hret F_win_w ltac:(cbn; lia)) as H3.
  pose proof (Hret F_win_h ltac:(cbn; lia)) as H4.
  pose proof (Hret F_color_w ltac:(cbn; lia)) as H5.
  pose proof (Hret F_color_h ltac:(cbn; lia)) as H6.
  pose proof (Hret F_path ltac:(cbn; lia)) as H7.
  pose proof (Hret F_threshold ltac:(cbn; lia)) as H8.
  pose proof (Hret F_vertical ltac:(cbn; lia)) as H9.
  pose proof (Hret F_reverse ltac:(cbn; lia)) as H10.
  cbn in H1, H2, H3, H4, H5, H6, H7, H8, H9, H10, Hcol. by subst.
Qed.

(** The amended C6 at a file whose first two lines are [8] and [abc]: the
    second conversion fails, [n_clusters] is the 8 of the first line, and
    the nine other settings have their compiled-in values. *)
Lemma read_settings_failure_keeps_later_defaults_witness :
  let w' := (read_settings stod_none (Some two_lines) start).2 in
  init_values start = defaults /\
  (exists e, (read_settings_body stod_none (Some two_lines) start).1 = Err e) /\
  (read_settings stod_none (Some two_lines) start).1 = Ok tt /\
  n_clusters (init_values w') = 8 /\
  exists k : nat,
    (k < 10)%nat /\
    (exists f line,
       field_position f = k /\
       settings_lines (Some two_lines) !! k = Some line /\
       refused stod_none f line) /\
    (forall f, (k <= field_position f)%nat ->
       same_field f (init_values w') defaults).
Proof.
  intros w'.
  assert (exists e,
            (read_settings_body stod_none (Some two_lines) start).1 = Err e)
    as Hfail by (eexists; vm_compute; reflexivity).
  split; [reflexivity|]. split; [exact Hfail|].
  destruct (read_settings_failure_keeps_later_defaults stod_none
              (Some two_lines) start eq_refl Hfail)
    as (Hret & k & Hk & Hrefused & Hassigned & Hkeep & _).
  split; [exact Hret|].
  split.
  - destruct Hrefused as (f & line & Hf & Hline & Href).
    destruct k as [|k].
    + destruct f; try discriminate Hf.
      vm_compute in Hline. injection Hline as <-.
      destruct Href as [what Href]. vm_compute in Href. discriminate Href.
    + pose proof (Hassigned F_n_clusters "8" ltac:(cbn; lia) eq_refl) as H8.
      cbn [assigned_from] in H8. change (stoi "8") with (Ok 8) in H8.
      symmetry. exact (Ok_inj _ _ H8).
  - exists k. split; [exact Hk|]. split; [exact Hrefused | exact Hkeep].
Defined.

(** C6 as stated fails: a file whose first line is [8] and whose second
    line is not a number makes the load fail, the diagnostic is printed, and
    [n_clusters] is 8, not the compiled-in 6. *)
Lemma read_settings_partial_update :
  let w' := (read_settings stod_none (Some two_lines) start).2 in
  (read_settings_body stod_none (Some two_lines) start).1 =
    Err (Exception "invalid_argument") /\
  cout w' = [Text "n_c	: "; IntVal 8; Endl] ++ settings_diagnostic /\
  n_clusters (init_values w') = 8 /\
  init_values w' <> defaults.
Proof.
  vm_compute. repeat split. discriminate.
Qed.

(** ** create_palette *)

Lemma size_t_of_int_small i : 0 <= i <= INT_MAX -> size_t_of_int i = i.
Proof.
  intros H. unfold size_t_of_int, SIZE_MOD. apply Z.mod_small.
  unfold INT_MAX in H. lia.
Qed.

Lemma int_of_size_t_small u : 0 <= u <= INT_MAX -> int_of_size_t u = u.
Proof.
  intros H. unfold int_of_size_t, INT_MAX in *.
  rewrite Z.mod_small by lia.
  replace (u <? 2 ^ 31) with true; [done|]. symmetry. apply Z.ltb_lt. lia.
Qed.

Lemma join_singletons {A B} (g : A -> B) (l : list A) :
  mjoin ((fun a => [g a]) <$> l) = g <$> l.
Proof. induction l as [|a l IH]; [done|]. simpl. f_equal. exact IH. Qed.

(** The loop of [create_palette] on a matrix with a row to leave out, three
    columns and cell sizes OpenCV accepts: one cell per row but the last. *)
Lemma palette_cells_rows x y (centers : Mat float_val) :
  mat_wf centers -> 1 <= rows centers -> 3 <= cols centers ->
  0 <= x -> 0 <= y ->
  palette_cells x y centers =
  Ok (cell_of_row x y centers <$> seqZ 0 (rows centers - 1)).
Proof.
  intros [[_ Hr] _] Hrows Hcols Hx Hy. unfold palette_cells, for_range.
  rewrite size_t_of_int_small by lia.
  rewrite (for_each_collect _ _ (fun i => [cell_of_row x y centers i])).
  { by rewrite join_singletons. }
  intros i acc Hi%elem_of_seqZ. unfold palette_cell.
  rewrite int_of_size_t_small by lia.
  rewrite !mat_at_in by lia. simpl. unfold new_mat.
  replace (x <? 0) with false by (symmetry; apply Z.ltb_ge; lia).
  replace (y <? 0) with false by (symmetry; apply Z.ltb_ge; lia).
  done.
Qed.

Lemma for_each_defined {A S} (xs : list A) (body : A -> S -> result S) s :
  (forall x s', x ∈ xs -> defined (body x s')) -> defined (for_each xs body s).
Proof.
  revert s. induction xs as [|x xs IH]; intros s Hbody; simpl; [intros why; discriminate|].
  pose proof (Hbody x s ltac:(left)) as Hx.
  destruct (body x s) as [s'|e]; simpl.
  - apply IH. intros y s'' Hy. apply Hbody. by right.
  - exact Hx.
Qed.

Lemma defined_Err {A B} (e : error) : defined (@Err A e) -> defined (@Err B e).
Proof. intros H why [= ->]. by apply (H why). Qed.

Lemma new_mat_defined x y s : defined (new_mat x y s).
Proof. unfold new_mat. destruct (_ || _); intros why; discriminate. Qed.

Lemma vconcat_defined ms : defined (vconcat ms).
Proof.
  unfold vconcat. destruct ms; [intros why; discriminate|].
  destruct (_ && _); intros why; discriminate.
Qed.

Lemma hconcat_defined ms : defined (hconcat ms).
Proof.
  unfold hconcat. destruct ms; [intros why; discriminate|].
  destruct (_ && _); intros why; discriminate.
Qed.

(** Every index the loop reaches is a row of the matrix, and not the last. *)
Lemma palette_loop_index (centers : Mat float_val) idx :
  mat_wf centers -> 1 <= rows centers ->
  idx ∈ seqZ 0 (size_t_of_int (rows centers - 1)) ->
  0 <= int_of_size_t idx < rows centers - 1.
Proof.
  intros [[_ Hr] _] Hrows. rewrite size_t_of_int_small by lia.
  intros Hi%elem_of_seqZ. rewrite int_of_size_t_small by lia. lia.
Qed.

Lemma palette_cells_defined x y (centers : Mat float_val) :
  mat_wf centers -> 1 <= rows centers -> 3 <= cols centers ->
  defined (palette_cells x y centers).
Proof.
  intros Hwf Hrows Hcols. unfold palette_cells, for_range.
  apply for_each_defined. intros idx acc Hidx.
  pose proof (palette_loop_index centers idx Hwf Hrows Hidx) as Hi.
  unfold palette_cell. rewrite !mat_at_in by lia. simpl.
  pose proof (new_mat_defined x y
    (data centers (int_of_size_t idx) 0, data centers (int_of_size_t idx) 1,
     data centers (int_of_size_t idx) 2)) as Hn.
  destruct (new_mat _ _ _); simpl; [intros why; discriminate | exact (defined_Err _ Hn)].
Qed.

Lemma create_palette_run ver rev centers w :
  create_palette ver rev centers w =
  (palette ← palette_cells (if ver then color_h (init_values w) else color_w (init_values w))
                           (if ver then color_w (init_values w) else color_h (init_values w))
                           centers;
   if ver then vconcat (if rev then List.rev palette else palette)
   else hconcat (if rev then List.rev palette else palette), w).
Proof.
  unfold create_palette. rewrite run_bind. simpl.
  destruct ver; simpl; rewrite run_bind, run_lift;
    destruct (palette_cells _ _ _); simpl; done.
Qed.

(** C9: on a centres matrix with at least two rows, every index the loop
    of [create_palette] reaches, converted to the [int] that [Mat::at]
    takes, is a row of the matrix; with the three columns a centres matrix
    has, each of the three reads is inside the matrix and [create_palette]
    never runs into undefined behaviour. *)
Theorem create_palette_in_bounds (centers : Mat float_val) :
  mat_wf centers -> 2 <= rows centers ->
  (forall idx,
     idx ∈ seqZ 0 (size_t_of_int (rows centers - 1)) ->
     0 <= int_of_size_t idx < rows centers) /\
  (3 <= cols centers ->
   (forall idx c,
      idx ∈ seqZ 0 (size_t_of_int (rows centers - 1)) -> 0 <= c < 3 ->
      mat_at centers (int_of_size_t idx) c =
      Ok (data centers (int_of_size_t idx) c)) /\
   (forall ver rev w, defined (create_palette ver rev centers w).1)).
Proof.
  intros Hwf Hrows. split.
  - intros idx Hidx.
    pose proof (palette_loop_index centers idx Hwf ltac:(lia) Hidx). lia.
  - intros Hcols. split.
    + intros idx c Hidx Hc.
      pose proof (palette_loop_index centers idx Hwf ltac:(lia) Hidx).
      apply mat_at_in; lia.
    + intros ver rev w. rewrite create_palette_run. simpl.
      pose proof (palette_cells_defined
        (if ver then color_h (init_values w) else color_w (init_values w))
        (if ver then color_w (init_values w) else color_h (init_values w))
        centers Hwf ltac:(lia) Hcols) as Hd.
      destruct (palette_cells _ _ _) as [cells|e]; simpl; [|exact (defined_Err _ Hd)].
      destruct ver; [apply vconcat_defined | apply hconcat_defined].
Qed.

Lemma for_each_first_fails {A S} (x : A) xs (body : A -> S -> result S) s e :
  body x s = Err e -> for_each (x :: xs) body s = Err e.
Proof. intros H. cbn [for_each]. by rewrite H. Qed.

Lemma size_t_of_minus_one : size_t_of_int (0 - 1) = 18446744073709551615.
Proof. vm_compute. reflexivity. Qed.

Lemma palette_cells_no_rows x y (centers : Mat float_val) :
  rows centers = 0 -> palette_cells x y centers = Err out_of_bounds.
Proof.
  intros H0. unfold palette_cells, for_range.
  rewrite H0, size_t_of_minus_one, seqZ_cons by lia.
  apply for_each_first_fails. unfold palette_cell.
  rewrite (mat_at_out centers (int_of_size_t 0) 0); [reflexivity|].
  rewrite H0. lia.
Qed.

(** C9 at [sample_centers]. *)
Lemma create_palette_in_bounds_witness :
  mat_wf sample_centers /\ 2 <= rows sample_centers /\
  (forall idx,
     idx ∈ seqZ 0 (size_t_of_int (rows sample_centers - 1)) ->
     0 <= int_of_size_t idx < rows sample_centers) /\
  defined (create_palette true true sample_centers ready).1.
Proof.
  assert (mat_wf sample_centers) as Hwf by (unfold mat_wf, INT_MAX; simpl; lia).
  assert (2 <= rows sample_centers) as Hrows by (simpl; lia).
  split; [exact Hwf|]. split; [exact Hrows|].
  destruct (create_palette_in_bounds sample_centers Hwf Hrows) as [H1 H2].
  split; [exact H1|].
  exact (proj2 (H2 ltac:(simpl; lia)) true true ready).
Defined.

(** X13: without a row of centres the bound [rows - 1] of the loop, converted
    to [size_t], wraps around to 2^64 - 1; the loop runs and its first read,
    at row 0, is outside the matrix: undefined behaviour, whatever the
    orientation and the settings. *)
Lemma create_palette_no_rows ver rev (centers : Mat float_val) w :
  rows centers = 0 ->
  (create_palette ver rev centers w).1 = Err out_of_bounds.
Proof.
  intros H0. rewrite create_palette_run. cbn [fst].
  by rewrite palette_cells_no_rows.
Qed.

(** ** PaletteComposer: the extents of the strip *)

Lemma total_rows_sized {A} x y (ms : list (Mat A)) :
  Forall (sized x y) ms -> total_rows ms = Z.of_nat (length ms) * x.
Proof.
  induction 1 as [|m ms [Hm _] _ IH]; [done|].
  cbn [total_rows foldr length]. fold (total_rows ms). rewrite IH, Hm. lia.
Qed.

Lemma total_cols_sized {A} x y (ms : list (Mat A)) :
  Forall (sized x y) ms -> total_cols ms = Z.of_nat (length ms) * y.
Proof.
  induction 1 as [|m ms [_ Hm] _ IH]; [done|].
  cbn [total_cols foldr length]. fold (total_cols ms). rewrite IH, Hm. lia.
Qed.

Lemma forallb_cols_sized {A} x y c (ms : list (Mat A)) :
  Forall (sized x y) ms -> c = y -> forallb (fun m => cols m =? c) ms = true.
Proof.
  intros H ->. induction H as [|m ms [_ Hm] _ IH]; [done|].
  simpl. rewrite IH, Hm, Z.eqb_refl. done.
Qed.

Lemma forallb_rows_sized {A} x y r (ms : list (Mat A)) :
  Forall (sized x y) ms -> r = x -> forallb (fun m => rows m =? r) ms = true.
Proof.
  intros H ->. induction H as [|m ms [Hm _] _ IH]; [done|].
  simpl. rewrite IH, Hm, Z.eqb_refl. done.
Qed.

Lemma vconcat_sized x y (ms : list (Mat Vec3b)) :
  ms <> [] -> Forall (sized x y) ms ->
  Z.of_nat (length ms) * x <= INT_MAX ->
  exists model, vconcat ms = Ok model /\
    rows model = Z.of_nat (length ms) * x /\ cols model = y.
Proof.
  intros Hne Hall Hmax. destruct ms as [|m0 ms']; [congruence|]. unfold vconcat.
  pose proof (Forall_inv Hall) as [_ H0].
  rewrite (forallb_cols_sized x y) by done.
  rewrite (total_rows_sized x y) by done.
  replace (_ <=? INT_MAX) with true by (symmetry; by apply Z.leb_le).
  eexists. split; [done|]. cbn [rows cols]. by split.
Qed.

Lemma hconcat_sized x y (ms : list (Mat Vec3b)) :
  ms <> [] -> Forall (sized x y) ms ->
  Z.of_nat (length ms) * y <= INT_MAX ->
  exists model, hconcat ms = Ok model /\
    rows model = x /\ cols model = Z.of_nat (length ms) * y.
Proof.
  intros Hne Hall Hmax. destruct ms as [|m0 ms']; [congruence|]. unfold hconcat.
  pose proof (Forall_inv Hall) as [H0 _].
  rewrite (forallb_rows_sized x y) by done.
  rewrite (total_cols_sized x y) by done.
  replace (_ <=? INT_MAX) with true by (symmetry; by apply Z.leb_le).
  eexists. split; [done|]. cbn [rows cols]. by split.
Qed.

(** Parts whose extents add up to more than an [int] holds are refused. *)
Lemma vconcat_too_high x y (ms : list (Mat Vec3b)) :
  Forall (sized x y) ms -> INT_MAX < Z.of_nat (length ms) * x ->
  vconcat ms = Err (Exception "cv::Exception").
Proof.
  intros Hall Hmax. destruct ms as [|m0 ms']; [simpl in Hmax; unfold INT_MAX in *; lia|].
  unfold vconcat. rewrite (total_rows_sized x y) by done.
  replace (_ <=? INT_MAX) with false by (symmetry; by apply Z.leb_gt).
  by rewrite andb_false_r.
Qed.

Lemma hconcat_too_wide x y (ms : list (Mat Vec3b)) :
  Forall (sized x y) ms -> INT_MAX < Z.of_nat (length ms) * y ->
  hconcat ms = Err (Exception "cv::Exception").
Proof.
  intros Hall Hmax. destruct ms as [|m0 ms']; [simpl in Hmax; unfold INT_MAX in *; lia|].
  unfold hconcat. rewrite (total_cols_sized x y) by done.
  replace (_ <=? INT_MAX) with false by (symmetry; by apply Z.leb_gt).
  by rewrite andb_false_r.
Qed.

Lemma cells_sized x y centers (l : list Z) :
  Forall (sized x y) (cell_of_row x y centers <$> l).
Proof. apply Forall_fmap, Forall_true. done. Qed.

Lemma int_result_Ok z : in_int z -> int_result z = Ok z.
Proof.
  intros [H1 H2]. unfold int_result.
  replace (INT_MIN <=? z) with true by (symmetry; by apply Z.leb_le).
  replace (z <=? INT_MAX) with true by (symmetry; by apply Z.leb_le).
  done.
Qed.

Lemma int_result_Err z :
  ¬ in_int z -> int_result z = Err (Undefined "signed integer overflow").
Proof.
  intros H. unfold int_result.
  destruct (INT_MIN <=? z) eqn:E1, (z <=? INT_MAX) eqn:E2; try done.
  exfalso. apply H. apply Z.leb_le in E1, E2. done.
Qed.

Lemma int_result_inv z v : int_result z = Ok v -> v = z /\ in_int z.
Proof.
  unfold int_result. destruct (_ && _) eqn:E; [|done].
  intros [= <-]. apply andb_true_iff in E as [E1 E2].
  apply Z.leb_le in E1, E2. done.
Qed.

Lemma setwin_run w :
  setwin w =
  (extent ← int_result (color_h (init_values w) * colors (init_values w));
   Ok (if vertical (init_values w)
       then {| px := color_w (init_values w); py := extent |}
       else {| px := extent; py := color_w (init_values w) |}), w).
Proof.
  unfold setwin. rewrite run_get_cfg.
  destruct (vertical (init_values w));
    destruct (int_result _); reflexivity.
Qed.

(** C5: for a configuration with at least two clusters, [colors] set by
    [main], cell sizes OpenCV accepts and a long side [color_h * colors]
    that an [int] holds, and for any centres matrix with [n_clusters] rows
    (whatever its values), [create_palette] returns a strip whose width and
    height are those [setwin] computes: [color_w] by [color_h * colors] when
    [vertical] is set, and the transposed extents otherwise. *)
Theorem strip_extents_from_configuration (w : World) (rev : bool)
    (centers : Mat float_val) :
  let c := init_values w in
  2 <= n_clusters c ->
  colors c = n_clusters c - 1 ->
  0 <= color_w c <= INT_MAX -> 0 <= color_h c ->
  color_h c * colors c <= INT_MAX ->
  mat_wf centers -> rows centers = n_clusters c -> cols centers = 3 ->
  exists model win,
    create_palette (vertical c) rev centers w = (Ok model, w) /\
    setwin w = (Ok win, w) /\
    mat_wf model /\
    cols model = px win /\ rows model = py win /\
    (vertical c = true ->
       cols model = color_w c /\ rows model = color_h c * colors c) /\
    (vertical c = false ->
       cols model = color_h c * colors c /\ rows model = color_w c).
Proof.
  intros c HK Hcolors Hw Hh Hmax Hwf Hrows Hcols.
  assert (0 <= color_h c * colors c) as Hprod by nia.
  rewrite create_palette_run, setwin_run. fold c.
  rewrite int_result_Ok by (unfold in_int, INT_MIN; lia). rewrite bind_Ok.
  set (x := if vertical c then color_h c else color_w c).
  set (y := if vertical c then color_w c else color_h c).
  assert (0 <= x /\ 0 <= y) as [Hx Hy] by (unfold x, y; destruct (vertical c); lia).
  rewrite (palette_cells_rows x y centers) by (try done; lia).
  rewrite bind_Ok.
  set (cells := cell_of_row x y centers <$> seqZ 0 (rows centers - 1)).
  set (palette := if rev then List.rev cells else cells).
  assert (Forall (sized x y) palette) as Hall.
  { unfold palette. destruct rev; [apply Forall_rev|]; apply cells_sized. }
  assert (Z.of_nat (length palette) = colors c) as Hlen.
  { unfold palette. replace (length (if rev then List.rev cells else cells))
      with (length cells) by (destruct rev; [by rewrite length_rev | done]).
    unfold cells. rewrite length_fmap, length_seqZ. lia. }
  assert (palette <> []) as Hne.
  { intros E. rewrite E in Hlen. simpl in Hlen. lia. }
  clearbody palette cells. unfold x, y in *. clear x y.
  destruct (vertical c) eqn:Ev.
  - destruct (vconcat_sized _ _ palette Hne Hall) as (model & -> & Hr & Hc);
      [rewrite Hlen; lia|].
    eexists _, _. split; [done|]. split; [done|]. cbn [px py].
    unfold mat_wf. rewrite Hr, Hc, Hlen. repeat split; try done; lia.
  - destruct (hconcat_sized _ _ palette Hne Hall) as (model & -> & Hr & Hc);
      [rewrite Hlen; lia|].
    eexists _, _. split; [done|]. split; [done|]. cbn [px py].
    unfold mat_wf. rewrite Hr, Hc, Hlen. repeat split; try done; lia.
Qed.

(** C5 at the compiled-in settings and [sample_centers]: the strip is 128
    wide and 695 high. *)
Lemma strip_extents_from_configuration_witness :
  let c := init_values ready in
  2 <= n_clusters c /\ colors c = n_clusters c - 1 /\
  0 <= color_w c <= INT_MAX /\ 0 <= color_h c /\
  color_h c * colors c <= INT_MAX /\
  mat_wf sample_centers /\ rows sample_centers = n_clusters c /\
  cols sample_centers = 3 /\
  exists model win,
    create_palette (vertical c) true sample_centers ready = (Ok model, ready) /\
    setwin ready = (Ok win, ready) /\
    cols model = px win /\ rows model = py win /\
    cols model = 128 /\ rows model = 695.
Proof.
  assert (mat_wf sample_centers) as Hwf by (unfold mat_wf, INT_MAX; simpl; lia).
  destruct (strip_extents_from_configuration ready true sample_centers
              ltac:(simpl; lia) eq_refl ltac:(unfold INT_MAX; simpl; lia)
              ltac:(simpl; lia) ltac:(unfold INT_MAX; simpl; lia)
              Hwf eq_refl eq_refl)
    as (model & win & Hc & Hs & _ & Hx & Hy & Hv & _).
  destruct (Hv eq_refl) as [Hcols Hrows].
  repeat (split; [first [exact Hwf | reflexivity | unfold INT_MAX; simpl; lia]|]).
  exists model, win. repeat (split; [assumption|]). exact Hrows.
Defined.

(** Beyond that bound there is no footprint and no strip: the product of
    [setwin] overflows, and the cells cannot be concatenated. *)
Lemma strip_extents_overflow (w : World) (rev : bool) (centers : Mat float_val) :
  let c := init_values w in
  2 <= n_clusters c -> colors c = n_clusters c - 1 ->
  0 <= color_w c -> 0 <= color_h c ->
  INT_MAX < color_h c * colors c ->
  mat_wf centers -> rows centers = n_clusters c -> cols centers = 3 ->
  setwin w = (Err (Undefined "signed integer overflow"), w) /\
  create_palette (vertical c) rev centers w =
    (Err (Exception "cv::Exception"), w).
Proof.
  intros c HK Hcolors Hw Hh Hmax Hwf Hrows Hcols.
  rewrite create_palette_run, setwin_run. fold c.
  rewrite int_result_Err by (unfold in_int; lia). split; [done|].
  set (x := if vertical c then color_h c else color_w c).
  set (y := if vertical c then color_w c else color_h c).
  assert (0 <= x /\ 0 <= y) as [Hx Hy] by (unfold x, y; destruct (vertical c); lia).
  rewrite (palette_cells_rows x y centers) by (try done; lia).
  rewrite bind_Ok.
  set (cells := cell_of_row x y centers <$> seqZ 0 (rows centers - 1)).
  set (palette := if rev then List.rev cells else cells).
  assert (Forall (sized x y) palette) as Hall.
  { unfold palette. destruct rev; [apply Forall_rev|]; apply cells_sized. }
  assert (Z.of_nat (length palette) = colors c) as Hlen.
  { unfold palette. replace (length (if rev then List.rev cells else cells))
      with (length cells) by (destruct rev; [by rewrite length_rev | done]).
    unfold cells. rewrite length_fmap, length_seqZ. lia. }
  clearbody palette cells. unfold x, y in *. clear x y.
  destruct (vertical c) eqn:Ev.
  - by rewrite (vconcat_too_high _ _ palette Hall) by (rewrite Hlen; lia).
  - by rewrite (hconcat_too_wide _ _ palette Hall) by (rewrite Hlen; lia).
Qed.

(** ** bincount *)

Lemma foldl_max_spec (ls : list Z) (a : Z) :
  a <= foldl Z.max a ls /\
  Forall (fun l => l <= foldl Z.max a ls) ls /\
  (foldl Z.max a ls = a \/ foldl Z.max a ls ∈ ls).
Proof.
  revert a. induction ls as [|l ls IH]; intros a; simpl.
  - split; [lia|]. split; [constructor | by left].
  - destruct (IH (Z.max a l)) as (H1 & H2 & H3). split; [lia|]. split.
    + constructor; [lia | done].
    + destruct H3 as [H3|H3]; [|right; by right].
      destruct (Z.max_spec a l) as [[_ E]|[_ E]]; rewrite E in H3 |- *.
      * right. rewrite H3. left.
      * by left.
Qed.

Lemma max_element_spec (labels : list Z) :
  labels <> [] ->
  exists m, max_element labels = Ok m /\ m ∈ labels /\
            Forall (fun l => l <= m) labels.
Proof.
  destruct labels as [|l ls]; [done|]. intros _. simpl.
  destruct (foldl_max_spec ls l) as (H1 & H2 & H3).
  eexists. split; [done|]. split.
  - destruct H3 as [->|H3]; [left | by right].
  - by constructor.
Qed.

Lemma sum_Z_insert (counts : list Z) (n : nat) c v :
  counts !! n = Some c -> sum_Z (<[n := v]> counts) = sum_Z counts - c + v.
Proof.
  revert n. induction counts as [|a counts IH]; intros n Hn; [done|].
  destruct n as [|n]; simpl in *.
  - injection Hn as ->. lia.
  - rewrite (IH n Hn). lia.
Qed.


Lemma increment_in_range label (counts : list Z) :
  0 <= label < Z.of_nat (length counts) ->
  exists c, counts !! Z.to_nat label = Some c /\
    increment label counts = Ok (<[Z.to_nat label := c + 1]> counts).
Proof.
  intros H. unfold increment.
  replace (0 <=? label) with true by (symmetry; apply Z.leb_le; lia).
  replace (label <? Z.of_nat (length counts)) with true
    by (symmetry; apply Z.ltb_lt; lia).
  simpl. destruct (counts !! Z.to_nat label) as [c|] eqn:E.
  - by exists c.
  - apply lookup_ge_None in E. lia.
Qed.

Lemma occurrences_cons l labels i :
  occurrences i (l :: labels) =
  (if decide (l = i) then 1 else 0) + occurrences i labels.
Proof.
  unfold occurrences. simpl. destruct (Z.eq_dec l i), (decide (l = i)); lia.
Qed.

(** The counting loop on labels that all index the vector. *)
Lemma for_each_increment (labels counts : list Z) :
  Forall (fun l => 0 <= l < Z.of_nat (length counts)) labels ->
  exists counts',
    for_each labels increment counts = Ok counts' /\
    length counts' = length counts /\
    (forall (n : nat) c, counts !! n = Some c ->
       counts' !! n = Some (c + occurrences (Z.of_nat n) labels)) /\
    sum_Z counts' = sum_Z counts + Z.of_nat (length labels).
Proof.
  revert counts. induction labels as [|l labels IH]; intros counts Hall.
  - exists counts. split; [done|]. split; [done|]. split.
    + intros n c Hn. rewrite Hn. f_equal. unfold occurrences. simpl. lia.
    + simpl. lia.
  - pose proof (Forall_inv Hall) as Hl. simpl in Hl.
    apply Forall_inv_tail in Hall.
    destruct (increment_in_range l counts Hl) as (c & Hc & Hinc).
    cbn [for_each]. rewrite Hinc, bind_Ok.
    destruct (IH (<[Z.to_nat l := c + 1]> counts)) as (counts' & Hfor & Hlen & Hocc & Hsum).
    { by rewrite length_insert. }
    exists counts'. split; [done|]. split; [by rewrite Hlen, length_insert|]. split.
    + intros n c' Hn. rewrite occurrences_cons.
      destruct (decide (l = Z.of_nat n)) as [E|Hne].
      * subst l. rewrite Nat2Z.id in *. rewrite Hn in Hc. injection Hc as <-.
        rewrite (Hocc n (c' + 1)); [f_equal; lia|].
        apply list_lookup_insert_eq. by eapply lookup_lt_Some.
      * rewrite (Hocc n c'); [f_equal; lia|].
        rewrite list_lookup_insert_ne; [done|]. lia.
    + rewrite Hsum, (sum_Z_insert _ _ c) by done. simpl length. lia.
Qed.

(** The run of [bincount] on labels that are there, not negative and below
    [INT_MAX]: the vector has an entry for every label up to the greatest,
    and the counting loop goes through. *)
Lemma bincount_run (labels : list Z) :
  labels <> [] -> Forall (fun l => 0 <= l < INT_MAX) labels ->
  exists m,
    max_element labels = Ok m /\ m ∈ labels /\ 0 <= m /\
    Forall (fun l => l <= m) labels /\
    bincount labels =
      for_each labels increment (replicate (Z.to_nat (m + 1)) 0) /\
    Forall (fun l => 0 <= l < Z.of_nat (length (replicate (Z.to_nat (m + 1)) 0)))
      labels.
Proof.
  intros Hne Hpos.
  destruct (max_element_spec labels Hne) as (m & Hm & Hin & Hmax).
  assert (0 <= m < INT_MAX) as Hm0.
  { rewrite Forall_forall in Hpos. by apply Hpos. }
  exists m. split; [done|]. split; [done|]. split; [lia|]. split; [done|].
  split.
  - unfold bincount. rewrite Hm, bind_Ok.
    rewrite int_result_Ok by (unfold in_int, INT_MIN, INT_MAX in *; lia).
    rewrite bind_Ok. unfold new_vector.
    replace (m + 1 <? 0) with false by (symmetry; apply Z.ltb_ge; lia).
    by rewrite bind_Ok.
  - rewrite length_replicate. rewrite Forall_forall in *.
    intros l Hl. specialize (Hpos l Hl). specialize (Hmax l Hl). simpl in *. lia.
Qed.

(** With a label that is [INT_MAX] (or more) the addition [max + 1]
    overflows. *)
Lemma bincount_overflow (labels : list Z) :
  Exists (fun l => INT_MAX <= l) labels ->
  bincount labels = Err (Undefined "signed integer overflow").
Proof.
  intros (l & Hl & Hge)%Exists_exists.
  assert (labels <> []) as Hne by (intros ->; by apply not_elem_of_nil in Hl).
  destruct (max_element_spec labels Hne) as (m & Hm & Hin & Hmax).
  rewrite Forall_forall in Hmax. specialize (Hmax l Hl). simpl in Hmax.
  unfold bincount. rewrite Hm, bind_Ok.
  by rewrite int_result_Err by (unfold in_int; lia).
Qed.



(** The [int]s of [bincount]: with labels below [INT_MAX] and no more than
    [INT_MAX] of them, the length [max + 1] and the counts (which only grow
    towards their final values) are [int]s. *)
Lemma occurrences_bound i (labels : list Z) :
  0 <= occurrences i labels <= Z.of_nat (length labels).
Proof.
  unfold occurrences. pose proof (count_occ_bound Z.eq_dec i labels). lia.
Qed.

Lemma bincount_in_int (labels : list Z) :
  labels <> [] ->
  Forall (fun l => 0 <= l < INT_MAX) labels ->
  Z.of_nat (length labels) <= INT_MAX ->
  exists m counts,
    max_element labels = Ok m /\ in_int (m + 1) /\
    bincount labels = Ok counts /\ Forall in_int counts.
Proof.
  intros Hne Hall Hlen.
  destruct (bincount_run labels Hne Hall)
    as (m & Hm & Hin & Hm0 & Hmax & Hrun & Hrange).
  destruct (for_each_increment labels _ Hrange)
    as (counts & Hfor & Hl & Hocc & _).
  exists m, counts. split; [done|].
  rewrite Forall_forall in Hall. specialize (Hall m Hin). simpl in Hall.
  split; [unfold in_int, INT_MIN, INT_MAX in *; lia|].
  split; [by rewrite Hrun|].
  apply Forall_forall. intros c [n Hn]%list_elem_of_lookup.
  pose proof (lookup_lt_Some _ _ _ Hn) as Hlt.
  rewrite Hl, length_replicate in Hlt.
  rewrite (Hocc n 0) in Hn by (apply lookup_replicate_2; lia).
  injection Hn as <-.
  pose proof (occurrences_bound (Z.of_nat n) labels).
  unfold in_int, INT_MIN, INT_MAX in *. lia.
Qed.

(** ** ColorQuantizer: the ordering step *)

#[local] Instance sorts_before_total : Total sorts_before.
Proof.
  intros a b. unfold sorts_before, sort_le.
  destruct a as [|[]|p], b as [|[]|q]; simpl; auto.
  destruct (Qlt_le_dec p q) as [H|H].
  - left. apply Qle_bool_iff. by apply Qlt_le_weak.
  - right. by apply Qle_bool_iff.
Qed.

#[local] Instance sorts_before_trans : Transitive sorts_before.
Proof.
  intros a b c. unfold sorts_before, sort_le.
  destruct a as [|[]|p], b as [|[]|q], c as [|[]|r]; simpl; try done.
  rewrite !Qle_bool_iff. apply Qle_trans.
Qed.

Lemma fle_refl a : is_nan a = false -> fle a a = true.
Proof.
  destruct a as [|[]|p]; simpl; try done. intros _.
  apply Qle_bool_iff, Qle_refl.
Qed.

Lemma sorts_before_ascending a b :
  is_nan a = false -> is_nan b = false -> sorts_before a b -> ascending a b.
Proof.
  unfold sorts_before, sort_le, ascending. intros Ha Hb. rewrite Ha, Hb. done.
Qed.

Lemma StronglySorted_ascending l :
  Forall (fun a => is_nan a = false) l ->
  StronglySorted sorts_before l -> StronglySorted ascending l.
Proof.
  intros Hnan Hs. induction Hs as [|a l Hs IH Ha]; constructor.
  - apply IH. by eapply Forall_inv_tail.
  - pose proof (Forall_inv Hnan) as Hna.
    apply Forall_inv_tail in Hnan.
    rewrite Forall_forall in *. intros b Hb.
    apply sorts_before_ascending; auto.
Qed.

Lemma StronglySorted_lookup {A} (R : relation A) l (i k : nat) a b :
  StronglySorted R l -> l !! i = Some a -> l !! k = Some b -> (i < k)%nat ->
  R a b.
Proof.
  intros Hs. revert i k. induction Hs as [|x l Hs IH Hx]; intros i k Hi Hk Hlt.
  - done.
  - destruct k as [|k]; [lia|]. destruct i as [|i]; simpl in *.
    + injection Hi as ->. rewrite Forall_forall in Hx. apply Hx.
      by eapply list_elem_of_lookup_2.
    + eapply IH; eauto. lia.
Qed.

Lemma length_column {A} (m : Mat A) j : length (column m j) = Z.to_nat (rows m).
Proof. unfold column. by rewrite length_fmap, length_seqZ. Qed.

Lemma lookup_column {A} (m : Mat A) j (i : Z) :
  0 <= i < rows m -> column m j !! Z.to_nat i = Some (data m i j).
Proof.
  intros Hi. unfold column. rewrite list_lookup_fmap.
  rewrite lookup_seqZ_lt by lia. simpl. f_equal. f_equal. lia.
Qed.

Lemma column_sorted (m : Mat float_val) j :
  column (sort_every_column m) j = merge_sort sorts_before (column m j).
Proof.
  pose proof (Permutation_length (merge_sort_Permutation sorts_before (column m j)))
    as Hlen.
  rewrite length_column in Hlen.
  unfold column at 1. cbn [rows data sort_every_column].
  set (L := merge_sort sorts_before (column m j)) in *.
  apply list_eq. intros n. rewrite list_lookup_fmap.
  destruct (decide (Z.of_nat n < rows m)) as [Hn|Hn].
  - rewrite lookup_seqZ_lt by done. simpl. rewrite Z.add_0_l, Nat2Z.id.
    destruct (L !! n) eqn:E; [done|].
    apply lookup_ge_None in E. lia.
  - rewrite lookup_seqZ_ge by lia. simpl. symmetry.
    apply lookup_ge_None. lia.
Qed.

Lemma column_no_nan (m : Mat float_val) j :
  (forall i, 0 <= i < rows m -> is_nan (data m i j) = false) ->
  Forall (fun a => is_nan a = false) (column m j).
Proof.
  intros H. unfold column. apply Forall_fmap, Forall_forall.
  intros i Hi%elem_of_seqZ. apply H. lia.
Qed.

(** After the ordering step each of the three columns of the centres is
    sorted ascending and is a rearrangement of the column it was, and the
    last row holds, in every channel, a value no other row exceeds. *)
Lemma sort_every_column_sorted (centers : Mat float_val) :
  mat_wf centers -> 2 <= rows centers ->
  (forall i j, 0 <= i < rows centers -> 0 <= j < 3 ->
               is_nan (data centers i j) = false) ->
  let sorted := sort_every_column centers in
  (forall j, 0 <= j < 3 ->
     StronglySorted ascending (column sorted j) /\
     column sorted j ≡ₚ column centers j) /\
  (forall i j, 0 <= i < rows centers -> 0 <= j < 3 ->
     ascending (data sorted i j) (data sorted (rows centers - 1) j)).
Proof.
  intros Hwf Hrows Hnan sorted.
  assert (forall j, 0 <= j < 3 ->
            StronglySorted ascending (column sorted j) /\
            column sorted j ≡ₚ column centers j) as Hsorted.
  { intros j Hj. unfold sorted. rewrite column_sorted. split.
    - apply StronglySorted_ascending.
      + rewrite merge_sort_Permutation. apply column_no_nan. auto.
      + apply (StronglySorted_merge_sort _).
    - apply merge_sort_Permutation. }
  split; [exact Hsorted|].
  intros i j Hi Hj. destruct (Hsorted j Hj) as [Hs Hp].
  assert (rows sorted = rows centers) as Hr by done.
  pose proof (lookup_column sorted j i ltac:(lia)) as Li.
  pose proof (lookup_column sorted j (rows centers - 1) ltac:(lia)) as Ll.
  destruct (decide (i = rows centers - 1)) as [->|Hne].
  + apply fle_refl.
    assert (Forall (fun a => is_nan a = false) (column sorted j)) as Hf.
    { rewrite Hp. apply column_no_nan. auto. }
    rewrite Forall_forall in Hf. apply Hf.
    by eapply list_elem_of_lookup_2.
  + eapply (StronglySorted_lookup _ _ _ _ _ _ Hs Li Ll). lia.
Qed.

(** ** Localizer *)

Lemma feq_fge a b : feq a b = true -> fge a b = true.
Proof.
  unfold fge. destruct a as [|s|p], b as [|t|q]; simpl; try done.
  - destruct s, t; done.
  - intros H. apply Qeq_bool_iff in H. apply Qle_bool_iff. rewrite H.
    apply Qle_refl.
Qed.

Lemma locate_row res thr row loc :
  0 <= row < rows res ->
  for_range (cols res) (locate_cell res thr row) loc =
  Ok (loc ++ row_hits res thr row).
Proof.
  intros Hrow. unfold for_range, row_hits.
  apply for_each_collect. intros col acc Hcol.
  apply elem_of_seqZ in Hcol. unfold locate_cell.
  rewrite mat_at_in by lia. simpl.
  destruct (fge _ _); [done | by rewrite app_nil_r].
Qed.

Lemma locate_hits res thr : locate res thr = Ok (hits res thr).
Proof.
  unfold locate, for_range, hits.
  rewrite (for_each_collect _ _ (row_hits res thr)); [done|].
  intros row acc Hrow. apply elem_of_seqZ in Hrow.
  apply locate_row. lia.
Qed.

Lemma elem_of_hits res thr pt :
  pt ∈ hits res thr <->
  0 <= py pt < rows res /\ 0 <= px pt < cols res /\
  fge (data res (py pt) (px pt)) thr = true.
Proof.
  unfold hits. rewrite list_elem_of_join. split.
  - intros (l & Hpt & Hl). apply list_elem_of_fmap in Hl as (row & -> & Hrow).
    apply elem_of_seqZ in Hrow. unfold row_hits in Hpt.
    apply list_elem_of_join in Hpt as (l & Hpt & Hl).
    apply list_elem_of_fmap in Hl as (col & -> & Hcol).
    apply elem_of_seqZ in Hcol.
    destruct (fge _ _) eqn:E; [|by apply not_elem_of_nil in Hpt].
    apply list_elem_of_singleton in Hpt as ->. simpl. split; [lia|]. split; [lia|done].
  - intros (Hrow & Hcol & Hge). exists (row_hits res thr (py pt)). split.
    + unfold row_hits. apply list_elem_of_join.
      exists [pt]. split; [by apply list_elem_of_singleton|].
      apply list_elem_of_fmap. exists (px pt). split.
      * rewrite Hge. by destruct pt.
      * apply elem_of_seqZ. lia.
    + apply list_elem_of_fmap. exists (py pt). split; [done|].
      apply elem_of_seqZ. lia.
Qed.

(** C4: the scan of the correlation surface always completes, and a cell
    becomes a candidate (at its column and row) exactly when its score is
    greater than or equal to the threshold; in particular a cell whose score
    is equal to the threshold is a candidate. *)
Theorem locate_inclusive_threshold (res : Mat float_val) (thr : float_val) :
  exists loc, locate res thr = Ok loc /\
    (forall row col,
       mkPoint col row ∈ loc <->
       0 <= row < rows res /\ 0 <= col < cols res /\
       fge (data res row col) thr = true) /\
    (forall row col,
       0 <= row < rows res -> 0 <= col < cols res ->
       feq (data res row col) thr = true -> mkPoint col row ∈ loc).
Proof.
  exists (hits res thr). split; [apply locate_hits|]. split.
  - intros row col. apply (elem_of_hits res thr (mkPoint col row)).
  - intros row col Hrow Hcol Heq.
    apply (elem_of_hits res thr (mkPoint col row)). simpl.
    auto using feq_fge.
Qed.

(** The candidates of a scan are in scan order. *)
Lemma seqZ_sorted m n : StronglySorted Z.lt (seqZ m n).
Proof.
  destruct (decide (n <= 0)) as [Hn|Hn]; [rewrite seqZ_nil by done; constructor|].
  rewrite <- (Z2Nat.id n) by lia. generalize (Z.to_nat n) as k. clear n Hn.
  intros k. revert m. induction k as [|k IH]; intros m.
  - rewrite seqZ_nil by done. constructor.
  - rewrite seqZ_cons by lia. constructor.
    + replace (Z.pred (Z.of_nat (S k))) with (Z.of_nat k) by lia. apply IH.
    + apply Forall_forall. intros x Hx%elem_of_seqZ. lia.
Qed.

Lemma join_sorted {A B} (R : relation B) (S : relation A) (f : A -> list B)
    (l : list A) :
  (forall a, StronglySorted R (f a)) ->
  (forall a1 a2 b1 b2, b1 ∈ f a1 -> b2 ∈ f a2 -> S a1 a2 -> R b1 b2) ->
  StronglySorted S l ->
  StronglySorted R (mjoin (f <$> l)).
Proof.
  intros Hf HR Hl. induction Hl as [|a l Hl IH Ha]; [constructor|].
  cbn [fmap list_fmap mjoin list_join]. apply StronglySorted_app.
  split; [|split; [apply Hf | apply IH]].
  intros b1 b2 H1 H2%list_elem_of_join. destruct H2 as (k & H2 & Hk).
  apply list_elem_of_fmap in Hk as (a' & -> & Ha').
  apply (HR a a'); [done..|].
  rewrite Forall_forall in Ha. by apply Ha.
Qed.

Lemma elem_of_row_hits res thr row pt :
  pt ∈ row_hits res thr row ->
  py pt = row /\ 0 <= px pt < cols res /\ fge (data res row (px pt)) thr = true.
Proof.
  unfold row_hits. intros (l & Hpt & Hl)%list_elem_of_join.
  apply list_elem_of_fmap in Hl as (col & -> & Hcol%elem_of_seqZ).
  destruct (fge _ _) eqn:E; [|by apply not_elem_of_nil in Hpt].
  apply list_elem_of_singleton in Hpt as ->. simpl. split; [done|]. split; [lia|done].
Qed.

Lemma row_hits_sorted res thr row :
  StronglySorted scan_before (row_hits res thr row).
Proof.
  unfold row_hits. apply (join_sorted scan_before Z.lt).
  - intros col. destruct (fge _ _); repeat constructor.
  - intros c1 c2 p q Hp Hq Hlt.
    destruct (fge (data res row c1) thr); [|by apply not_elem_of_nil in Hp].
    destruct (fge (data res row c2) thr); [|by apply not_elem_of_nil in Hq].
    apply list_elem_of_singleton in Hp as ->, Hq as ->. right. simpl. done.
  - apply seqZ_sorted.
Qed.

Lemma hits_sorted res thr : StronglySorted scan_before (hits res thr).
Proof.
  unfold hits. apply (join_sorted scan_before Z.lt).
  - apply row_hits_sorted.
  - intros r1 r2 p q Hp%elem_of_row_hits Hq%elem_of_row_hits Hlt.
    left. lia.
  - apply seqZ_sorted.
Qed.

(** ** MatchDeduplicator *)

Section Dedup.

Variables (vertical : bool) (win : Point).

Lemma dedup_loop_accepted loc drawn temp :
  dedup_loop vertical win loc drawn temp =
  (drawn ++ (draw win <$> accepted vertical loc temp),
   last_accepted vertical loc temp).
Proof.
  revert drawn temp. induction loc as [|pt rest IH]; intros drawn temp; simpl.
  - by rewrite app_nil_r.
  - destruct (7 <? _); rewrite IH; [|done].
    by rewrite <- app_assoc.
Qed.

Lemma dedup_accepted loc :
  dedup vertical win loc =
  (draw win <$> accepted vertical loc 0, last_accepted vertical loc 0).
Proof. unfold dedup. by rewrite dedup_loop_accepted. Qed.

Lemma accepted_app l1 l2 temp :
  accepted vertical (l1 ++ l2) temp =
  accepted vertical l1 temp ++
  accepted vertical l2 (last_accepted vertical l1 temp).
Proof.
  revert temp. induction l1 as [|pt l1 IH]; intros temp; simpl; [done|].
  destruct (7 <? _); simpl; by rewrite IH.
Qed.

Lemma accepted_sublist loc temp pt :
  pt ∈ accepted vertical loc temp -> pt ∈ loc.
Proof.
  revert temp. induction loc as [|q rest IH]; intros temp; simpl; [done|].
  destruct (7 <? _).
  - intros [->|H]%elem_of_cons; [left | right; eauto].
  - intros H. right. eauto.
Qed.

(** Nothing accepted: [temp] is what it was. *)
Lemma accepted_nil_last loc temp :
  accepted vertical loc temp = [] -> last_accepted vertical loc temp = temp.
Proof.
  revert temp. induction loc as [|pt rest IH]; intros temp; simpl; [done|].
  destruct (7 <? _); [done | apply IH].
Qed.

Lemma accepted_chain loc temp :
  chain vertical temp (accepted vertical loc temp).
Proof.
  revert temp. induction loc as [|pt rest IH]; intros temp; simpl; [done|].
  destruct (7 <? _) eqn:E; [|apply IH].
  simpl. split; [by apply Z.ltb_lt in E | apply IH].
Qed.


Lemma box_tl_draw pt : box_tl (draw win pt) = pt.
Proof. by destruct pt. Qed.

Lemma accepted_sublist_of loc temp : accepted vertical loc temp `sublist_of` loc.
Proof.
  revert temp. induction loc as [|pt rest IH]; intros temp; simpl; [done|].
  destruct (7 <? _); [apply sublist_skip | apply sublist_cons]; apply IH.
Qed.

End Dedup.












(** C8: on candidates with non-negative coordinates (a scan yields no
    other, see [traversal_nonneg]) the first accepted detection has a
    primary-axis coordinate above 7, and as long as nothing has been
    accepted a candidate at 7 or below is discarded. *)
Theorem first_detection_beyond_radius (vertical : bool) (win : Point)
    (loc : list Point) :
  Forall (fun pt => 0 <= primary vertical pt) loc ->
  (forall d rest,
     (dedup vertical win loc).1 = d :: rest ->
     7 < primary vertical (box_tl d)) /\
  (forall pre c post,
     loc = pre ++ c :: post ->
     (dedup vertical win pre).1 = [] ->
     primary vertical c <= 7 ->
     (dedup vertical win (pre ++ [c])).1 = []).
Proof.
  intros Hpos. split.
  - intros d rest E.
    pose proof (accepted_chain vertical loc 0) as Hfar.
    rewrite dedup_accepted in E. simpl in E.
    destruct (accepted vertical loc 0) as [|p pts] eqn:Ea; [done|].
    simpl in E. injection E as <- _. rewrite box_tl_draw.
    destruct Hfar as [Hfar _].
    assert (p ∈ loc) as Hin.
    { apply (accepted_sublist vertical loc 0). rewrite Ea. left. }
    rewrite Forall_forall in Hpos. specialize (Hpos p Hin). simpl in Hpos. lia.
  - intros pre c post -> Hpre Hc.
    rewrite dedup_accepted in *. simpl in *.
    apply fmap_nil_inv in Hpre.
    rewrite accepted_app, Hpre, (accepted_nil_last _ _ _ Hpre). simpl.
    apply Forall_app in Hpos as [_ Hpos]. apply Forall_cons in Hpos as [Hpos _].
    simpl in Hpos.
    replace (7 <? Z.abs (primary vertical c - 0)) with false; [done|].
    symmetry. apply Z.ltb_ge. lia.
Qed.

(** C8 at three candidates: 3 and 7 are discarded, 10 is accepted. *)
Lemma first_detection_beyond_radius_witness :
  let loc := [mkPoint 3 0; mkPoint 7 2; mkPoint 10 1] in
  let win := mkPoint 128 695 in
  Forall (fun pt => 0 <= primary true pt) loc /\
  7 < primary true (box_tl (draw win (mkPoint 10 1))) /\
  (dedup true win ([mkPoint 3 0] ++ [mkPoint 7 2])).1 = [].
Proof.
  assert (Forall (fun pt => 0 <= primary true pt)
            [mkPoint 3 0; mkPoint 7 2; mkPoint 10 1]) as Hpos
    by (repeat constructor; simpl; lia).
  split; [exact Hpos|].
  destruct (first_detection_beyond_radius true (mkPoint 128 695) _ Hpos)
    as [H1 H2].
  split.
  - exact (H1 _ _ eq_refl).
  - exact (H2 [mkPoint 3 0] (mkPoint 7 2) [mkPoint 10 1] eq_refl eq_refl
             ltac:(simpl; lia)).
Defined.

(** The scan only yields coordinates of cells. *)
Lemma traversal_nonneg res thr loc rev vertical :
  locate res thr = Ok loc ->
  Forall (fun pt => 0 <= primary vertical pt) (traversal rev loc).
Proof.
  rewrite locate_hits. intros [= <-].
  assert (Forall (fun pt => 0 <= primary vertical pt) (hits res thr)) as H.
  { apply Forall_forall. intros pt Hpt. apply elem_of_hits in Hpt.
    destruct vertical; simpl; lia. }
  unfold traversal. destruct rev; [|done].
  by apply Forall_rev.
Qed.

(** *** The arithmetic of the loop stays within [int]

    The candidates of a scan are positions of the surface, so their
    coordinates lie between 0 and [INT_MAX]; [temp] is 0 or one of them; the
    differences the loop takes, and their absolute values, are [int]s. *)

Lemma hits_in_int res thr pt :
  mat_wf res -> pt ∈ hits res thr ->
  0 <= px pt <= INT_MAX /\ 0 <= py pt <= INT_MAX.
Proof. intros [Hr Hc] H%elem_of_hits. lia. Qed.

Lemma differences_in_int vertical loc temp :
  Forall (fun pt => 0 <= primary vertical pt <= INT_MAX) loc ->
  0 <= temp <= INT_MAX ->
  Forall (fun d => in_int d /\ in_int (Z.abs d)) (differences vertical loc temp) /\
  0 <= last_accepted vertical loc temp <= INT_MAX.
Proof.
  intros Hloc. revert temp.
  induction Hloc as [|pt rest Hpt _ IH]; intros temp Htemp; simpl.
  - split; [constructor | done].
  - assert (in_int (primary vertical pt - temp) /\
            in_int (Z.abs (primary vertical pt - temp))) as Hd
      by (unfold in_int, INT_MIN, INT_MAX in *; lia).
    destruct (7 <? _).
    + destruct (IH (primary vertical pt) Hpt) as [H1 H2].
      split; [by constructor | done].
    + destruct (IH temp Htemp) as [H1 H2].
      split; [by constructor | done].
Qed.

(** If nothing is accepted the message is printed. *)
Lemma no_detection_not_found vertical win loc :
  (dedup vertical win loc).1 = [] -> not_found (dedup vertical win loc).2 = true.
Proof.
  rewrite dedup_accepted. simpl. intros H%fmap_nil_inv.
  by rewrite accepted_nil_last.
Qed.

(** *** The message when nothing is found *)

(** C2 fails on the code: with the compiled-in settings and the surface
    [res_border], two detections are accepted (at x = 8 and then at x = 0),
    drawn and shown, and "Palette not found!" is printed all the same,
    because the second one leaves [temp] at 0. *)
Theorem not_found_printed_after_detections :
  let r := process_image (mkPoint 128 695) border_entry ready in
  r.1 = Ok None /\
  last (shown r.2) =
    Some (mkWindow "border.png" (512, 512)
            (Annotated [draw (mkPoint 128 695) (mkPoint 8 0);
                        draw (mkPoint 128 695) (mkPoint 0 0)])) /\
  cout r.2 =
    [Text (quoted "border.png"); Endl; Text "Palette not found!"; Endl].
Proof.
  vm_compute. repeat split.
Qed.

(** ** The global struct after initialisation *)

Lemma preserves_ret {A} (a : A) : preserves_cfg (mret a : M A).
Proof. by intros w. Qed.

Lemma preserves_lift {A} (r : result A) : preserves_cfg (lift r).
Proof. by intros w. Qed.

Lemma preserves_get_cfg : preserves_cfg get_cfg.
Proof. by intros w. Qed.

Lemma preserves_print items : preserves_cfg (print items).
Proof. by intros w. Qed.

Lemma preserves_imshow name size p : preserves_cfg (imshow name size p).
Proof. intros w. unfold imshow. by destruct (picture_empty p). Qed.

Lemma preserves_bind {A B} (m : M A) (f : A -> M B) :
  preserves_cfg m -> (forall a, preserves_cfg (f a)) -> preserves_cfg (m ≫= f).
Proof.
  intros Hm Hf w. rewrite run_bind. specialize (Hm w).
  destruct (m w) as [[a|e] w1]; cbn [snd] in *; [|done].
  by rewrite Hf.
Qed.

Create HintDb preserves.
#[local] Hint Resolve preserves_ret preserves_lift preserves_get_cfg
  preserves_print preserves_imshow : preserves.

Ltac preserves :=
  repeat first
    [ solve [auto with preserves]
    | apply preserves_bind; [|intros ?]
    | match goal with
      | |- preserves_cfg (match ?p with _ => _ end) => destruct p
      end
    | progress cbn zeta ].

Lemma preserves_setwin : preserves_cfg setwin.
Proof. unfold setwin. preserves. Qed.
#[local] Hint Resolve preserves_setwin : preserves.

Lemma preserves_create_palette ver rev centers :
  preserves_cfg (create_palette ver rev centers).
Proof. unfold create_palette. preserves. Qed.
#[local] Hint Resolve preserves_create_palette : preserves.

Lemma preserves_process_image win e : preserves_cfg (process_image win e).
Proof.
  unfold process_image. preserves.
Qed.
#[local] Hint Resolve preserves_process_image : preserves.

Lemma preserves_main_loop win entries : preserves_cfg (main_loop win entries).
Proof.
  induction entries as [|e es IH]; cbn [main_loop]; [auto with preserves|].
  preserves.
Qed.
#[local] Hint Resolve preserves_main_loop : preserves.

(** With at least two clusters the subtraction [n_clusters - 1] stays an
    [int]. *)
Lemma colors_in_int (c : Config) :
  in_int (n_clusters c) -> 2 <= n_clusters c -> in_int (n_clusters c - 1).
Proof. unfold in_int, INT_MIN, INT_MAX. lia. Qed.

Section MainProofs.

Variable stod : string -> option float_val.

Lemma main_init_run settings argv w :
  exists out,
    main_init stod settings argv w =
    (Ok tt,
     let c := init_values (read_settings stod settings w).2 in
     let c1 := set_colors (n_clusters c - 1) c in
     mkWorld (match argv with _ :: arg1 :: _ => set_path arg1 c1 | _ => c1 end)
             out (shown (read_settings stod settings w).2)).
Proof.
  unfold main_init. rewrite run_bind.
  pose proof (read_settings_returns stod settings w) as Hr.
  destruct (read_settings stod settings w) as [r w1]. cbn [fst snd] in *.
  subst r. destruct argv as [|a0 [|a1 argv]]; eexists; reflexivity.
Qed.

(** C7: whatever the settings file and the command line, the start of
    [main] ends normally with [colors = n_clusters - 1], and nothing that
    runs afterwards ([setwin], [create_palette], the processing of an image,
    the loop over the directory, hence [main] itself) changes the global
    struct. *)
Theorem colors_is_n_clusters_minus_one (settings : option string)
    (argv : list string) (w : World) :
  let w1 := (main_init stod settings argv w).2 in
  (main_init stod settings argv w).1 = Ok tt /\
  colors (init_values w1) = n_clusters (init_values w1) - 1 /\
  preserves_cfg setwin /\
  (forall ver rev centers, preserves_cfg (create_palette ver rev centers)) /\
  (forall win e, preserves_cfg (process_image win e)) /\
  (forall win entries, preserves_cfg (main_loop win entries)) /\
  (forall dir,
     init_values (main stod settings argv dir w).2 = init_values w1).
Proof.
  intros w1. subst w1.
  destruct (main_init_run settings argv w) as [out Hrun].
  split; [by rewrite Hrun|]. split.
  { rewrite Hrun. cbn [snd init_values].
    by destruct argv as [|a0 [|a1 argv]]. }
  split; [apply preserves_setwin|].
  split; [apply preserves_create_palette|].
  split; [apply preserves_process_image|].
  split; [apply preserves_main_loop|].
  intros dir. unfold main. rewrite run_bind.
  destruct (main_init stod settings argv w) as [r w1] eqn:E.
  injection Hrun as -> Hw. cbn [snd].
  change (init_values
    ((setwin ≫= fun win => get_cfg ≫= fun c =>
        match dir (path c) with
        | Some entries => main_loop win entries
        | None => lift (Err (Exception "filesystem_error"))
        end) w1).2 = init_values w1).
  assert (preserves_cfg (setwin ≫= fun win => get_cfg ≫= fun c =>
        match dir (path c) with
        | Some entries => main_loop win entries
        | None => lift (Err (Exception "filesystem_error"))
        end)) as Hp by preserves.
  apply Hp.
Qed.

End MainProofs.

(** * Further properties *)

(** ** MatchDeduplicator: further properties *)

Section DedupMore.

Variables (vertical : bool) (win : Point).

Lemma accepted_nil_iff loc temp :
  accepted vertical loc temp = [] <->
  Forall (fun pt => Z.abs (primary vertical pt - temp) <= 7) loc.
Proof.
  induction loc as [|pt rest IH]; simpl.
  - split; [constructor | done].
  - destruct (7 <? _) eqn:E.
    + apply Z.ltb_lt in E. split; [done|].
      intros H%Forall_inv. lia.
    + apply Z.ltb_ge in E. rewrite IH. split.
      * by constructor.
      * apply Forall_inv_tail.
Qed.

Lemma last_accepted_last loc temp :
  last_accepted vertical loc temp =
  from_option (primary vertical) temp (last (accepted vertical loc temp)).
Proof.
  revert temp. induction loc as [|pt rest IH]; intros temp; simpl; [done|].
  destruct (7 <? _); [|apply IH].
  rewrite IH. destruct (accepted vertical rest (primary vertical pt)) as [|p l]; [done|].
  rewrite last_cons_cons. destruct (last (p :: l)) eqn:E; [done|].
  by apply last_None in E.
Qed.

Lemma chain_accepted temp pts :
  chain vertical temp pts -> accepted vertical pts temp = pts.
Proof.
  revert temp. induction pts as [|p pts IH]; intros temp; simpl; [done|].
  intros [H1 H2]. apply Z.ltb_lt in H1. rewrite H1. f_equal. by apply IH.
Qed.

Lemma accepted_group c rest temp :
  7 < Z.abs (primary vertical c - temp) ->
  Forall (fun p => Z.abs (primary vertical p - primary vertical c) <= 7) rest ->
  accepted vertical (c :: rest) temp = [c].
Proof.
  intros Hc Hrest. simpl. apply Z.ltb_lt in Hc. rewrite Hc. f_equal.
  by apply accepted_nil_iff.
Qed.

End DedupMore.

Lemma fmap_box_tl_draw win (pts : list Point) :
  box_tl <$> (draw win <$> pts) = pts.
Proof.
  induction pts as [|p pts IH]; [done|].
  cbn [fmap list_fmap]. rewrite box_tl_draw. f_equal. exact IH.
Qed.

(** X1: no detection is accepted for an image exactly when every candidate
    has its primary coordinate within 7 of 0, the initial value of [temp]:
    candidates near the left border (the top border for a horizontal strip)
    are lost however well they match. *)
Theorem nothing_accepted_iff (vertical : bool) (win : Point) (loc : list Point) :
  (dedup vertical win loc).1 = [] <->
  Forall (fun pt => Z.abs (primary vertical pt) <= 7) loc.
Proof.
  rewrite dedup_accepted. cbn [fst].
  assert (draw win <$> accepted vertical loc 0 = [] <->
          accepted vertical loc 0 = []) as ->.
  { split; [apply fmap_nil_inv | by intros ->]. }
  rewrite accepted_nil_iff. apply Forall_proper; [|done].
  intros pt. by rewrite Z.sub_0_r.
Qed.

(** X2: when the loop ends, [temp] is the primary coordinate of the last
    accepted detection, or 0 when there is none.  So the test [temp == 0]
    that guards the message holds exactly when nothing was accepted or the
    last accepted detection lies at primary coordinate 0. *)
Theorem not_found_iff (vertical : bool) (win : Point) (loc : list Point) :
  (dedup vertical win loc).2 =
    from_option (fun d => primary vertical (box_tl d)) 0
      (last (dedup vertical win loc).1) /\
  (not_found (dedup vertical win loc).2 = true <->
   (dedup vertical win loc).1 = [] \/
   exists d, last (dedup vertical win loc).1 = Some d /\
             primary vertical (box_tl d) = 0).
Proof.
  assert ((dedup vertical win loc).2 =
    from_option (fun d => primary vertical (box_tl d)) 0
      (last (dedup vertical win loc).1)) as Htemp.
  { rewrite dedup_accepted. cbn [fst snd]. rewrite last_accepted_last.
    rewrite fmap_last. destruct (last (accepted vertical loc 0)) as [p|]; [|done].
    by destruct p. }
  split; [exact Htemp|]. rewrite Htemp. unfold not_found.
  destruct (last (dedup vertical win loc).1) as [d|] eqn:E; simpl.
  - rewrite Z.eqb_eq. split.
    + intros H. right. by exists d.
    + intros [H|(d' & [= <-] & H)]; [|done].
      rewrite H in E. done.
  - apply last_None in E. split; [by left | done].
Qed.

(** X3: the top-left corners of the boxes drawn are candidates, taken in the
    order of the traversal (they form a sublist of it); each box has the
    size of the strip, and its label gives the bottom-right corner and is
    put 70 pixels below the box, at its left edge. *)
Theorem detections_are_boxes_at_candidates (vertical : bool) (win : Point)
    (loc : list Point) :
  let ds := (dedup vertical win loc).1 in
  (box_tl <$> ds) `sublist_of` loc /\
  Forall (fun d =>
    box_br d = mkPoint (px (box_tl d) + px win) (py (box_tl d) + py win) /\
    label_numbers d = (px (box_br d), py (box_br d)) /\
    label_at d = mkPoint (px (box_tl d)) (py (box_br d) + 70)) ds.
Proof.
  rewrite dedup_accepted. cbn [fst]. split.
  - rewrite fmap_box_tl_draw. apply accepted_sublist_of.
  - apply Forall_fmap, Forall_true. intros [x y]. done.
Qed.

(** X4: the loop run again on the corners it accepted accepts them all, and
    ends with the same [temp]: the accepted candidates are a fixed point. *)
Theorem dedup_idempotent (vertical : bool) (win : Point) (loc : list Point) :
  dedup vertical win (box_tl <$> (dedup vertical win loc).1) =
  dedup vertical win loc.
Proof.
  rewrite !dedup_accepted. cbn [fst]. rewrite fmap_box_tl_draw.
  rewrite !last_accepted_last.
  by rewrite (chain_accepted vertical 0 _ (accepted_chain vertical loc 0)).
Qed.

(** X5: candidates that all lie within 7 of the first of them, itself more
    than 7 away from 0, give one detection, the box of the first; [temp]
    ends at its primary coordinate. *)
Theorem group_gives_one_detection (vertical : bool) (win : Point)
    (c : Point) (rest : list Point) :
  7 < Z.abs (primary vertical c) ->
  Forall (fun p => Z.abs (primary vertical p - primary vertical c) <= 7) rest ->
  dedup vertical win (c :: rest) = ([draw win c], primary vertical c).
Proof.
  intros Hc Hrest. rewrite dedup_accepted, last_accepted_last.
  rewrite (accepted_group vertical c rest 0) by (by rewrite ?Z.sub_0_r).
  done.
Qed.

(** X5 at four candidates around column 100. *)
Lemma group_gives_one_detection_witness :
  7 < Z.abs (primary true (mkPoint 100 50)) /\
  Forall (fun p => Z.abs (primary true p - primary true (mkPoint 100 50)) <= 7)
    [mkPoint 101 50; mkPoint 99 51; mkPoint 107 51] /\
  dedup true (mkPoint 128 695)
    [mkPoint 100 50; mkPoint 101 50; mkPoint 99 51; mkPoint 107 51] =
  ([draw (mkPoint 128 695) (mkPoint 100 50)], 100).
Proof.
  assert (7 < Z.abs (primary true (mkPoint 100 50))) as H1 by (simpl; lia).
  assert (Forall (fun p => Z.abs (primary true p - primary true (mkPoint 100 50)) <= 7)
    [mkPoint 101 50; mkPoint 99 51; mkPoint 107 51]) as H2
    by (repeat constructor; simpl; lia).
  split; [exact H1|]. split; [exact H2|].
  exact (group_gives_one_detection true (mkPoint 128 695) (mkPoint 100 50) _ H1 H2).
Defined.

(** ** Localizer: further properties *)

#[local] Instance scan_before_irrefl : Irreflexive scan_before.
Proof. intros p [H|[_ H]]; lia. Qed.

Lemma StronglySorted_NoDup {A} (R : relation A) `{!Irreflexive R} (l : list A) :
  StronglySorted R l -> NoDup l.
Proof.
  induction 1 as [|x l Hl IH Hx]; constructor; [|done].
  intros Hin. rewrite Forall_forall in Hx. by apply (irreflexivity R x), Hx.
Qed.

(** X6: the scan always completes, and its candidates come in scan order
    (row after row, and by increasing column within a row), so that no cell
    is collected twice. *)
Theorem candidates_in_scan_order (res : Mat float_val) (thr : float_val) :
  exists loc, locate res thr = Ok loc /\
    StronglySorted scan_before loc /\ NoDup loc.
Proof.
  exists (hits res thr). split; [apply locate_hits|].
  split; [apply hits_sorted|].
  apply (StronglySorted_NoDup scan_before), hits_sorted.
Qed.

Lemma fle_trans a b c : fle a b = true -> fle b c = true -> fle a c = true.
Proof.
  destruct a as [|[]|p], b as [|[]|q], c as [|[]|r]; simpl; try done.
  rewrite !Qle_bool_iff. apply Qle_trans.
Qed.

Lemma join_sublist {A B} (f g : A -> list B) (l : list A) :
  (forall a, f a `sublist_of` g a) ->
  mjoin (f <$> l) `sublist_of` mjoin (g <$> l).
Proof.
  intros H. induction l as [|a l IH]; [done|].
  cbn [fmap list_fmap mjoin list_join]. by apply sublist_app.
Qed.

(** X7: raising the threshold can only remove candidates: the candidates
    for the higher threshold are among those for the lower one, in the same
    order. *)
Theorem higher_threshold_fewer_candidates (res : Mat float_val)
    (thr1 thr2 : float_val) :
  fle thr1 thr2 = true ->
  exists loc1 loc2,
    locate res thr1 = Ok loc1 /\ locate res thr2 = Ok loc2 /\
    loc2 `sublist_of` loc1.
Proof.
  intros Hle. exists (hits res thr1), (hits res thr2).
  split; [apply locate_hits|]. split; [apply locate_hits|].
  unfold hits. apply join_sublist. intros row.
  unfold row_hits. apply join_sublist. intros col. unfold fge.
  destruct (fle thr2 _) eqn:E2; [|apply sublist_nil_l].
  by rewrite (fle_trans _ _ _ Hle E2).
Qed.

(** X7 at [res_dup], for the thresholds 0.5 and 0.99. *)
Lemma higher_threshold_fewer_candidates_witness :
  fle (FNum (1 # 2)) threshold_default = true /\
  exists loc1 loc2,
    locate res_dup (FNum (1 # 2)) = Ok loc1 /\
    locate res_dup threshold_default = Ok loc2 /\
    loc2 `sublist_of` loc1.
Proof.
  split; [reflexivity|].
  exact (higher_threshold_fewer_candidates res_dup (FNum (1 # 2))
           threshold_default eq_refl).
Defined.

(** X8: a NaN never passes the comparison [>=]: with a NaN threshold no
    cell is a candidate, and whatever the threshold no cell whose score is
    NaN is one. *)
Theorem nan_is_never_a_candidate (res : Mat float_val) (thr : float_val) :
  locate res FNaN = Ok [] /\
  exists loc, locate res thr = Ok loc /\
    Forall (fun pt => is_nan (data res (py pt) (px pt)) = false) loc.
Proof.
  split.
  - rewrite locate_hits. f_equal. unfold hits.
    apply join_nil, Forall_fmap, Forall_true. intros row. unfold row_hits.
    apply join_nil, Forall_fmap, Forall_true. intros col. unfold fge.
    by destruct (data res row col) as [|[]|].
  - exists (hits res thr). split; [apply locate_hits|].
    apply Forall_forall. intros pt (_ & _ & H)%elem_of_hits.
    unfold fge in H. destruct (data res (py pt) (px pt)); [|done..].
    by destruct thr as [|[]|].
Qed.

(** ** bincount: further properties *)

Lemma increment_negative label counts :
  label < 0 -> increment label counts = Err (Undefined "vector index out of range").
Proof.
  intros H. unfold increment.
  replace (0 <=? label) with false; [done|]. symmetry. apply Z.leb_gt. lia.
Qed.

Lemma increment_outcome label counts :
  (exists counts', increment label counts = Ok counts') \/
  increment label counts = Err (Undefined "vector index out of range").
Proof.
  unfold increment. destruct (_ && _); [|by right].
  destruct (counts !! Z.to_nat label); [left; eauto | by right].
Qed.

Lemma for_each_increment_negative (labels counts : list Z) :
  Exists (fun l => l < 0) labels ->
  for_each labels increment counts = Err (Undefined "vector index out of range").
Proof.
  intros Hex. revert counts.
  induction labels as [|l labels IH]; intros counts; [by apply Exists_nil in Hex|].
  cbn [for_each]. apply Exists_cons in Hex as [Hl|Hex].
  - by rewrite increment_negative.
  - destruct (increment_outcome l counts) as [[counts' ->]| ->]; [|done].
    rewrite bind_Ok. by apply IH.
Qed.

(** X9: [bincount] on labels one of which is negative.  When every label is
    below -1 the size [max + 1] of the vector is negative and its
    construction throws; otherwise, when no label is [INT_MAX], the vector is
    built and the increment at the first negative label (or before it)
    writes outside of it, which is undefined behaviour; and with a label
    [INT_MAX] the addition [max + 1] overflows, which is undefined
    behaviour as well. *)
Theorem bincount_negative_label (labels : list Z) :
  Exists (fun l => l < 0) labels ->
  (Forall (fun l => INT_MIN <= l < -1) labels ->
     bincount labels = Err (Exception "length_error")) /\
  (Exists (fun l => -1 <= l) labels ->
   Forall (fun l => l < INT_MAX) labels ->
     bincount labels = Err (Undefined "vector index out of range")) /\
  (Exists (fun l => INT_MAX <= l) labels ->
     bincount labels = Err (Undefined "signed integer overflow")).
Proof.
  intros Hneg.
  assert (labels <> []) as Hne by (intros ->; by apply Exists_nil in Hneg).
  destruct (max_element_spec labels Hne) as (m & Hm & Hin & Hmax).
  split; [|split].
  - intros Hall. rewrite Forall_forall in Hall. specialize (Hall m Hin).
    simpl in Hall. unfold bincount. rewrite Hm, bind_Ok.
    rewrite int_result_Ok by (unfold in_int, INT_MIN, INT_MAX in *; lia).
    rewrite bind_Ok. unfold new_vector.
    replace (m + 1 <? 0) with true; [done|]. symmetry. apply Z.ltb_lt. lia.
  - intros (l & Hl & Hge)%Exists_exists Hall.
    rewrite Forall_forall in Hmax, Hall. specialize (Hmax l Hl).
    specialize (Hall m Hin). simpl in Hmax, Hall.
    unfold bincount. rewrite Hm, bind_Ok.
    rewrite int_result_Ok by (unfold in_int, INT_MIN, INT_MAX in *; lia).
    rewrite bind_Ok. unfold new_vector.
    replace (m + 1 <? 0) with false by (symmetry; apply Z.ltb_ge; lia).
    rewrite bind_Ok. by apply for_each_increment_negative.
  - apply bincount_overflow.
Qed.

(** X9 at the labels 2, -1, 0. *)
Lemma bincount_negative_label_witness :
  Exists (fun l => l < 0) [2; -1; 0] /\
  Exists (fun l => -1 <= l) [2; -1; 0] /\
  Forall (fun l => l < INT_MAX) [2; -1; 0] /\
  bincount [2; -1; 0] = Err (Undefined "vector index out of range").
Proof.
  assert (Exists (fun l => l < 0) [2; -1; 0]) as H1
    by (apply Exists_cons_tl, Exists_cons_hd; lia).
  assert (Exists (fun l => -1 <= l) [2; -1; 0]) as H2
    by (apply Exists_cons_hd; lia).
  assert (Forall (fun l => l < INT_MAX) [2; -1; 0]) as H3
    by (repeat constructor; unfold INT_MAX; lia).
  split; [exact H1|]. split; [exact H2|]. split; [exact H3|].
  exact (proj1 (proj2 (bincount_negative_label [2; -1; 0] H1)) H2 H3).
Defined.

Lemma occurrences_Permutation i (l1 l2 : list Z) :
  l1 ≡ₚ l2 -> occurrences i l1 = occurrences i l2.
Proof.
  intros H. unfold occurrences. f_equal.
  by apply (Permutation_count_occ Z.eq_dec).
Qed.

Lemma bincount_entries (labels : list Z) :
  labels <> [] -> Forall (fun l => 0 <= l < INT_MAX) labels ->
  exists m counts,
    m ∈ labels /\ Forall (fun l => l <= m) labels /\
    bincount labels = Ok counts /\
    Z.of_nat (length counts) = m + 1 /\
    (forall n : nat, Z.of_nat n <= m ->
       counts !! n = Some (occurrences (Z.of_nat n) labels)).
Proof.
  intros Hne Hpos.
  destruct (bincount_run labels Hne Hpos)
    as (m & Hm & Hin & Hm0 & Hmax & Hrun & Hrange).
  destruct (for_each_increment labels _ Hrange)
    as (counts & Hfor & Hlen & Hocc & _).
  exists m, counts. split; [done|]. split; [done|].
  split; [by rewrite Hrun|]. rewrite length_replicate in Hlen.
  split; [lia|]. intros n Hn. rewrite (Hocc n 0).
  - by rewrite Z.add_0_l.
  - apply lookup_replicate_2. lia.
Qed.

(** X10: the counts do not depend on the order of the labels: on
    non-negative labels, [bincount] gives the same result for any
    rearrangement of them. *)
Theorem bincount_order_independent (labels labels' : list Z) :
  Forall (fun l => 0 <= l) labels ->
  labels ≡ₚ labels' ->
  bincount labels' = bincount labels.
Proof.
  intros Hpos Hperm.
  destruct (decide (Exists (fun l => INT_MAX <= l) labels)) as [Hbig|Hsmall].
  { rewrite (bincount_overflow labels Hbig).
    apply bincount_overflow. by rewrite <- Hperm. }
  apply not_Exists_Forall in Hsmall; [|intros l; apply _].
  assert (Forall (fun l => 0 <= l < INT_MAX) labels) as Hall.
  { rewrite Forall_forall in *. intros l Hl.
    specialize (Hpos l Hl). specialize (Hsmall l Hl). simpl in *. lia. }
  clear Hpos Hsmall.
  destruct labels as [|l0 ls].
  { apply Permutation_nil_l in Hperm. by subst. }
  assert (l0 :: ls <> []) as Hne by done.
  assert (labels' <> []) as Hne'.
  { intros ->. by apply Permutation_nil_r in Hperm. }
  assert (Forall (fun l => 0 <= l < INT_MAX) labels') as Hall'
    by (by rewrite <- Hperm).
  destruct (bincount_entries _ Hne Hall)
    as (m & counts & Hin & Hmax & -> & Hlen & Hocc).
  destruct (bincount_entries _ Hne' Hall')
    as (m' & counts' & Hin' & Hmax' & -> & Hlen' & Hocc').
  assert (m' = m) as ->.
  { rewrite Forall_forall in Hmax, Hmax'.
    rewrite <- Hperm in Hin'. rewrite Hperm in Hin.
    specialize (Hmax _ Hin'). specialize (Hmax' _ Hin). simpl in *. lia. }
  f_equal. apply list_eq. intros n.
  destruct (decide (Z.of_nat n <= m)) as [Hn|Hn].
  - rewrite (Hocc n Hn), (Hocc' n Hn). f_equal.
    symmetry. by apply occurrences_Permutation.
  - rewrite !lookup_ge_None_2; [done|lia..].
Qed.

(** X10 at the labels 0, 1, 1, 3 with the first two exchanged. *)
Lemma bincount_order_independent_witness :
  Forall (fun l => 0 <= l) [0; 1; 1; 3] /\
  [0; 1; 1; 3] ≡ₚ [1; 0; 1; 3] /\
  bincount [1; 0; 1; 3] = bincount [0; 1; 1; 3].
Proof.
  assert (Forall (fun l => 0 <= l) [0; 1; 1; 3]) as H
    by (repeat constructor; lia).
  assert ([0; 1; 1; 3] ≡ₚ [1; 0; 1; 3]) as Hp by apply perm_swap.
  split; [exact H|]. split; [exact Hp|].
  exact (bincount_order_independent [0; 1; 1; 3] [1; 0; 1; 3] H Hp).
Defined.

(** ** create_palette: further properties *)

Lemma rev_is_reverse {A} (l : list A) : List.rev l = list_basics.list.reverse l.
Proof. unfold list_basics.list.reverse. apply rev_alt. Qed.

Lemma vstack_cells x y centers (l : list Z) rest i j k :
  0 < x -> 0 <= i -> l !! Z.to_nat (i / x) = Some k ->
  vstack (cell_of_row x y centers <$> l) rest i j = pixel_of_row centers k.
Proof.
  intros Hx. revert i. induction l as [|a l IH]; intros i Hi Hk; [done|].
  cbn [fmap list_fmap vstack cell_of_row rows data].
  destruct (i <? x) eqn:E.
  - apply Z.ltb_lt in E. rewrite Z.div_small in Hk by lia.
    simpl in Hk. by injection Hk as ->.
  - apply Z.ltb_ge in E. apply IH; [lia|].
    replace (i - x) with (i + (-1) * x) by lia.
    rewrite Z.div_add by lia.
    assert (1 <= i / x) by (apply Z.div_le_lower_bound; lia).
    replace (Z.to_nat (i / x)) with (S (Z.to_nat (i / x + -1))) in Hk by lia.
    exact Hk.
Qed.

Lemma hstack_cells x y centers (l : list Z) rest i j k :
  0 < y -> 0 <= j -> l !! Z.to_nat (j / y) = Some k ->
  hstack (cell_of_row x y centers <$> l) rest i j = pixel_of_row centers k.
Proof.
  intros Hy. revert j. induction l as [|a l IH]; intros j Hj Hk; [done|].
  cbn [fmap list_fmap hstack cell_of_row cols data].
  destruct (j <? y) eqn:E.
  - apply Z.ltb_lt in E. rewrite Z.div_small in Hk by lia.
    simpl in Hk. by injection Hk as ->.
  - apply Z.ltb_ge in E. apply IH; [lia|].
    replace (j - y) with (j + (-1) * y) by lia.
    rewrite Z.div_add by lia.
    assert (1 <= j / y) by (apply Z.div_le_lower_bound; lia).
    replace (Z.to_nat (j / y)) with (S (Z.to_nat (j / y + -1))) in Hk by lia.
    exact Hk.
Qed.

(** The rows the cells of the strip are made from, first cell first. *)
Lemma palette_order (rev : bool) n k :
  0 <= k < n ->
  (if rev then List.rev (seqZ 0 n) else seqZ 0 n) !! Z.to_nat k =
  Some (if rev then n - 1 - k else k).
Proof.
  intros Hk. destruct rev.
  - rewrite rev_is_reverse, reverse_lookup by (rewrite length_seqZ; lia).
    rewrite length_seqZ, lookup_seqZ_lt by lia. f_equal. lia.
  - rewrite lookup_seqZ_lt by lia. f_equal. lia.
Qed.

Lemma palette_as_cells (rev : bool) x y centers (l : list Z) :
  (if rev then List.rev (cell_of_row x y centers <$> l)
   else cell_of_row x y centers <$> l) =
  cell_of_row x y centers <$> (if rev then List.rev l else l).
Proof. destruct rev; [|done]. by rewrite !rev_is_reverse, fmap_reverse. Qed.

Lemma vconcat_data ms model :
  vconcat ms = Ok model -> ms <> [] ->
  exists rest, forall i j, data model i j = vstack ms rest i j.
Proof.
  unfold vconcat. destruct ms as [|m0 ms']; [done|].
  destruct (_ && _); [|done]. intros [= <-] _. by exists (data m0).
Qed.

Lemma hconcat_data ms model :
  hconcat ms = Ok model -> ms <> [] ->
  exists rest, forall i j, data model i j = hstack ms rest i j.
Proof.
  unfold hconcat. destruct ms as [|m0 ms']; [done|].
  destruct (_ && _); [|done]. intros [= <-] _. by exists (data m0).
Qed.

(** X11: the colours of the strip.  With at least two clusters, positive
    cell sizes, a long side [color_h * (n_clusters - 1)] that an [int]
    holds, and a centres matrix of [n_clusters] rows and 3 columns, the
    strip is made of [n_clusters - 1] cells of extent [color_h] along its
    long side (downwards when vertical, rightwards otherwise); the pixel at
    [(r, col)] lies in cell [r / color_h] (resp. [col / color_h]) and holds
    the three values of one row of the centres, each converted to a byte
    (rounded, and saturated to 0..255): row [cell], or, reversed, row
    [n_clusters - 2 - cell].  The last row of the centres gives no cell. *)
Theorem strip_cells_follow_the_rows (w : World) (rev : bool)
    (centers : Mat float_val) :
  let c := init_values w in
  2 <= n_clusters c ->
  0 < color_w c -> 0 < color_h c ->
  color_h c * (n_clusters c - 1) <= INT_MAX ->
  mat_wf centers -> rows centers = n_clusters c -> cols centers = 3 ->
  exists model,
    create_palette (vertical c) rev centers w = (Ok model, w) /\
    forall r col,
      0 <= r < rows model -> 0 <= col < cols model ->
      let cell := if vertical c then r / color_h c else col / color_h c in
      0 <= cell <= n_clusters c - 2 /\
      data model r col =
        pixel_of_row centers (if rev then n_clusters c - 2 - cell else cell).
Proof.
  intros c HK Hw Hh Hmax Hwf Hrows Hcols.
  rewrite create_palette_run. fold c.
  set (x := if vertical c then color_h c else color_w c).
  set (y := if vertical c then color_w c else color_h c).
  assert (0 < x /\ 0 < y) as [Hx Hy] by (unfold x, y; destruct (vertical c); lia).
  rewrite (palette_cells_rows x y centers) by (try done; lia).
  rewrite bind_Ok, palette_as_cells, Hrows.
  set (order := if rev then List.rev (seqZ 0 (n_clusters c - 1))
                else seqZ 0 (n_clusters c - 1)).
  assert (forall k, 0 <= k < n_clusters c - 1 ->
            order !! Z.to_nat k =
            Some (if rev then n_clusters c - 2 - k else k)) as Horder.
  { intros k Hk. unfold order. rewrite palette_order by done.
    f_equal. destruct rev; lia. }
  assert (length order = Z.to_nat (n_clusters c - 1)) as Hlen.
  { unfold order. destruct rev; by rewrite ?length_rev, length_seqZ. }
  assert (Forall (sized x y) (cell_of_row x y centers <$> order)) as Hall
    by apply cells_sized.
  assert (cell_of_row x y centers <$> order <> []) as Hne.
  { intros E. apply (f_equal length) in E. rewrite length_fmap, Hlen in E.
    simpl in E. lia. }
  clearbody order. unfold x, y in *. clear x y.
  destruct (vertical c) eqn:Ev.
  - destruct (vconcat_sized _ _ _ Hne Hall) as (model & Hv & Hr & Hc);
      [rewrite length_fmap, Hlen; lia|].
    rewrite Hv. exists model. split; [done|].
    intros r col Hrr Hcc. rewrite Hr, length_fmap, Hlen in Hrr.
    assert (0 <= r / color_h c < n_clusters c - 1) as Hcell.
    { split; [apply Z.div_pos; lia|]. apply Z.div_lt_upper_bound; lia. }
    split; [lia|].
    destruct (vconcat_data _ _ Hv Hne) as [rest ->].
    apply vstack_cells; [done|lia|]. by apply Horder.
  - destruct (hconcat_sized _ _ _ Hne Hall) as (model & Hv & Hr & Hc);
      [rewrite length_fmap, Hlen; lia|].
    rewrite Hv. exists model. split; [done|].
    intros r col Hrr Hcc. rewrite Hc, length_fmap, Hlen in Hcc.
    assert (0 <= col / color_h c < n_clusters c - 1) as Hcell.
    { split; [apply Z.div_pos; lia|]. apply Z.div_lt_upper_bound; lia. }
    split; [lia|].
    destruct (hconcat_data _ _ Hv Hne) as [rest ->].
    apply hstack_cells; [done|lia|]. by apply Horder.
Qed.

(** X11 at [sample_centers] with the compiled-in settings: the first pixel
    has the colour of row 4 and the last one that of row 0. *)
Lemma strip_cells_follow_the_rows_witness :
  let c := init_values ready in
  2 <= n_clusters c /\ 0 < color_w c /\ 0 < color_h c /\
  color_h c * (n_clusters c - 1) <= INT_MAX /\
  mat_wf sample_centers /\ rows sample_centers = n_clusters c /\
  cols sample_centers = 3 /\
  exists model,
    create_palette (vertical c) true sample_centers ready = (Ok model, ready) /\
    data model 0 0 = (160, 161, 162) /\
    data model 694 127 = (0, 1, 2).
Proof.
  assert (mat_wf sample_centers) as Hwf by (unfold mat_wf, INT_MAX; simpl; lia).
  destruct (strip_cells_follow_the_rows ready true sample_centers
              ltac:(simpl; lia) ltac:(simpl; lia) ltac:(simpl; lia)
              ltac:(unfold INT_MAX; simpl; lia)
              Hwf eq_refl eq_refl) as (model & Hc & Hdata).
  assert (rows model = 695 /\ cols model = 128) as [Hr Hcl].
  { injection Hc as <-. vm_compute. done. }
  repeat (split; [first [exact Hwf | reflexivity | unfold INT_MAX; simpl; lia]|]).
  exists model. split; [exact Hc|]. split.
  - exact (proj2 (Hdata 0 0 ltac:(lia) ltac:(lia))).
  - exact (proj2 (Hdata 694 127 ltac:(lia) ltac:(lia))).
Defined.

(** X12: with a single row of centres the loop of [create_palette] does not
    run, the list of cells is empty and the concatenation leaves the result
    empty; the call returns normally, whatever the orientation and the cell
    sizes. *)
Theorem single_row_gives_empty_strip (ver rev : bool)
    (centers : Mat float_val) (w : World) :
  rows centers = 1 ->
  create_palette ver rev centers w = (Ok empty_mat, w).
Proof.
  intros H1. rewrite create_palette_run. unfold palette_cells, for_range.
  rewrite H1. change (size_t_of_int (1 - 1)) with 0.
  rewrite seqZ_nil by done. cbn [for_each]. rewrite bind_Ok.
  by destruct ver, rev.
Qed.

(** X12 at a centres matrix of one row. *)
Lemma single_row_gives_empty_strip_witness :
  rows one_center = 1 /\
  create_palette true true one_center ready = (Ok empty_mat, ready).
Proof.
  split; [reflexivity|].
  exact (single_row_gives_empty_strip true true one_center ready eq_refl).
Defined.

(** X13 at a centres matrix without a row. *)
Lemma create_palette_no_rows_witness :
  rows no_center = 0 /\
  (create_palette true true no_center ready).1 = Err out_of_bounds.
Proof.
  split; [reflexivity|].
  exact (create_palette_no_rows true true no_center ready eq_refl).
Defined.

(** ** read_settings: further properties *)

Lemma split_line_line l rest :
  no_newline l = true -> split_line (l +:+ String LF rest) = (l, Some rest).
Proof.
  induction l as [|c l IH]; simpl; [done|].
  intros [Hc Hl]%andb_true_iff. apply negb_true_iff in Hc.
  unfold LF in Hc. rewrite Hc, (IH Hl). done.
Qed.

Lemma split_line_last l : no_newline l = true -> split_line l = (l, None).
Proof.
  induction l as [|c l IH]; simpl; [done|].
  intros [Hc Hl]%andb_true_iff. apply negb_true_iff in Hc.
  unfold LF in Hc. rewrite Hc, (IH Hl). done.
Qed.

Lemma getline_line l rest setting :
  no_newline l = true ->
  getline (mkStream (l +:+ String LF rest) false false) setting =
  (mkStream rest false false, l).
Proof. intros H. unfold getline. cbn. by rewrite split_line_line. Qed.

Lemma getline_failed content eof setting :
  getline (mkStream content eof true) setting =
  (mkStream content eof true, setting).
Proof. unfold getline. cbn. by rewrite orb_true_r. Qed.

Lemma getline_at_end content fail setting :
  getline (mkStream content true fail) setting =
  (mkStream content true true, setting).
Proof. reflexivity. Qed.

Lemma getline_last l setting :
  no_newline l = true -> l <> EmptyString ->
  getline (mkStream l false false) setting = (mkStream "" true false, l).
Proof.
  intros H Hne. unfold getline. cbn. rewrite split_line_last by done.
  by destruct l.
Qed.

Lemma stoi_empty : stoi "" = Err (Exception "invalid_argument").
Proof. reflexivity. Qed.

Section SettingsMore.

Variable stod : string -> option float_val.

Ltac step :=
  lazy beta iota zeta;
  repeat first
    [ rewrite run_lift_Ok | rewrite run_get_cfg
    | rewrite run_modify_cfg | rewrite run_print ];
  cbn [init_values cout shown].

(** X14: a file of ten lines that all convert.  Each line is ended by a
    line feed; lines 1 to 6, 9 and 10 are accepted by [stoi] and line 8 by
    [stod].  Then every setting is assigned from its line (the path is line
    7 as it stands, [vertical] and [reverse] are true exactly for the value
    1), [colors] is left alone, the ten settings are echoed in order, no
    diagnostic is printed, and whatever follows the tenth line is ignored. *)
Theorem read_settings_well_formed_file (w : World)
    (l1 l2 l3 l4 l5 l6 l7 l8 l9 l10 rest : string)
    (v1 v2 v3 v4 v5 v6 v9 v10 : Z) (t : float_val) :
  Forall (fun l => no_newline l = true) [l1; l2; l3; l4; l5; l6; l7; l8; l9; l10] ->
  stoi l1 = Ok v1 -> stoi l2 = Ok v2 -> stoi l3 = Ok v3 ->
  stoi l4 = Ok v4 -> stoi l5 = Ok v5 -> stoi l6 = Ok v6 ->
  stod l8 = Some t -> stoi l9 = Ok v9 -> stoi l10 = Ok v10 ->
  let cfg := mkConfig v1 v2 v3 v4 v5 v6 (colors (init_values w)) l7 t
               (v9 =? 1) (v10 =? 1) in
  read_settings stod
    (Some (file_of [l1; l2; l3; l4; l5; l6; l7; l8; l9; l10] rest)) w =
  (Ok tt, mkWorld cfg (cout w ++ echoes 10 cfg) (shown w)).
Proof.
  intros Hall H1 H2 H3 H4 H5 H6 H8 H9 H10 cfg.
  repeat (apply Forall_cons in Hall as [? Hall]).
  destruct w as [c out sh].
  unfold read_settings, try_catch, read_settings_body, ifstream_open, file_of.
  cbn [foldr].
  rewrite getline_line by done. rewrite H1. step.
  rewrite getline_line by done. rewrite H2. step.
  rewrite getline_line by done. rewrite H3. step.
  rewrite getline_line by done. rewrite H4. step.
  rewrite getline_line by done. rewrite H5. step.
  rewrite getline_line by done. rewrite H6. step.
  rewrite getline_line by done. step.
  rewrite getline_line by done. unfold stod_result. rewrite H8. step.
  rewrite getline_line by done. rewrite H9. step.
  rewrite getline_line by done. rewrite H10. step.
  rewrite run_ret. unfold cfg. cbn. f_equal. f_equal.
  rewrite <- !app_assoc. reflexivity.
Qed.

(** X15: when the file cannot be opened, is empty, or has a first line that
    [stoi] refuses, no setting is assigned and nothing is echoed: the only
    effect of [read_settings] is the diagnostic. *)
Theorem read_settings_nothing_read (file : option string) (w : World) :
  file = None \/ file = Some EmptyString \/
  (exists l rest e,
     no_newline l = true /\ stoi l = Err e /\
     (file = Some (l +:+ String LF rest) \/ file = Some l)) ->
  read_settings stod file w =
  (Ok tt, mkWorld (init_values w) (cout w ++ settings_diagnostic) (shown w)).
Proof.
  intros [->|[->|(l & rest & e & Hl & He & Hfile)]].
  - reflexivity.
  - reflexivity.
  - destruct (stoi_exception _ _ He) as [what ->].
    unfold read_settings, try_catch, read_settings_body, ifstream_open.
    destruct Hfile as [->| ->].
    + rewrite getline_line by done. lazy beta iota zeta.
      rewrite He, run_lift_Err. reflexivity.
    + destruct l as [|c l'].
      { reflexivity. }
      rewrite getline_last by done. lazy beta iota zeta.
      rewrite He, run_lift_Err. reflexivity.
Qed.

(** X16: [getline] on a stream at its end leaves the string as it is, and
    the code does not look at the state of the stream.  So a file of a
    single line without a line feed, when [stoi] and [stod] accept it, gives
    all ten settings: the same line is converted ten times, and no
    diagnostic is printed. *)
Theorem read_settings_last_line_reused (w : World) (l : string) (v : Z)
    (t : float_val) :
  no_newline l = true -> stoi l = Ok v -> stod l = Some t ->
  let cfg := mkConfig v v v v v v (colors (init_values w)) l t
               (v =? 1) (v =? 1) in
  read_settings stod (Some l) w =
  (Ok tt, mkWorld cfg (cout w ++ echoes 10 cfg) (shown w)).
Proof.
  intros Hl Hv Ht cfg.
  assert (l <> EmptyString) as Hne by (intros ->; by rewrite stoi_empty in Hv).
  destruct w as [c out sh].
  unfold read_settings, try_catch, read_settings_body, ifstream_open.
  rewrite getline_last by done. rewrite Hv. step.
  do 5 (rewrite getline_at_end; rewrite Hv; step).
  rewrite getline_at_end. step.
  rewrite getline_at_end. unfold stod_result. rewrite Ht. step.
  do 2 (rewrite getline_at_end; rewrite Hv; step).
  rewrite run_ret. unfold cfg. cbn. f_equal. f_equal.
  rewrite <- !app_assoc. reflexivity.
Qed.

End SettingsMore.

(** X14 at [sample_settings]. *)
Lemma read_settings_well_formed_file_witness :
  Forall (fun l => no_newline l = true) sample_lines /\
  read_settings sample_stod (Some sample_settings) start =
  (Ok tt,
   mkWorld (mkConfig 8 100 640 480 64 70 (colors defaults) "imgs"
              threshold_default false true)
     (echoes 10 (mkConfig 8 100 640 480 64 70 (colors defaults) "imgs"
                   threshold_default false true))
     []).
Proof.
  assert (Forall (fun l => no_newline l = true) sample_lines) as H
    by (repeat constructor).
  split; [exact H|].
  exact (read_settings_well_formed_file sample_stod start
           "8" "100" "640" "480" "64" "70" "imgs" "0.99" "0" "1" ""
           8 100 640 480 64 70 0 1 threshold_default
           H eq_refl eq_refl eq_refl eq_refl eq_refl eq_refl eq_refl
           eq_refl eq_refl).
Defined.

(** X15 at a file that cannot be opened. *)
Lemma read_settings_nothing_read_witness :
  read_settings sample_stod None start =
  (Ok tt, mkWorld defaults settings_diagnostic []).
Proof.
  exact (read_settings_nothing_read sample_stod None start
           (or_introl eq_refl)).
Defined.

(** X16 at the file whose only content is [0.99]. *)
Lemma read_settings_last_line_reused_witness :
  no_newline "0.99" = true /\ stoi "0.99" = Ok 0 /\
  sample_stod "0.99" = Some threshold_default /\
  read_settings sample_stod (Some "0.99") start =
  (Ok tt,
   mkWorld (mkConfig 0 0 0 0 0 0 (colors defaults) "0.99" threshold_default
              false false)
     (echoes 10 (mkConfig 0 0 0 0 0 0 (colors defaults) "0.99"
                   threshold_default false false))
     []).
Proof.
  split; [reflexivity|]. split; [reflexivity|]. split; [reflexivity|].
  exact (read_settings_last_line_reused sample_stod start "0.99" 0
           threshold_default eq_refl eq_refl eq_refl).
Defined.

(** ** main: further properties *)

Lemma run_imshow {B} name size p (f : unit -> M B) w :
  picture_empty p = false ->
  (imshow name size p ≫= f) w =
  f tt (mkWorld (init_values w) (cout w) (shown w ++ [mkWindow name size p])).
Proof. intros H. unfold mbind, M_bind, imshow. by rewrite H. Qed.

Lemma run_imshow_empty {B} name size p (f : unit -> M B) w :
  picture_empty p = true ->
  (imshow name size p ≫= f) w = (Err (Exception "cv::Exception"), w).
Proof. intros H. unfold mbind, M_bind, imshow. by rewrite H. Qed.

Lemma process_image_unreadable win e w :
  image_empty e = true ->
  process_image win e w =
  (Ok (Some 1),
   mkWorld (init_values w) (cout w ++ unreadable_output e) (shown w)).
Proof.
  intros H. unfold process_image. rewrite run_print, H, run_print, run_ret.
  cbn [init_values cout shown]. by rewrite <- app_assoc.
Qed.

(** On centres with a row to leave out and three columns, with positive
    cell sizes and a long side an [int] holds, [create_palette] returns a
    strip that has pixels. *)
Lemma create_palette_ok (w : World) (ver rev : bool) (centers : Mat float_val) :
  let c := init_values w in
  0 < color_w c -> 0 < color_h c ->
  mat_wf centers -> 2 <= rows centers -> 3 <= cols centers ->
  color_h c * (rows centers - 1) <= INT_MAX ->
  let x := if ver then color_h c else color_w c in
  let y := if ver then color_w c else color_h c in
  let palette := cell_of_row x y centers <$> seqZ 0 (rows centers - 1) in
  exists model,
    palette_cells x y centers = Ok palette /\
    (if ver then vconcat (if rev then List.rev palette else palette)
     else hconcat (if rev then List.rev palette else palette)) = Ok model /\
    create_palette ver rev centers w = (Ok model, w) /\
    picture_empty (Strip model) = false.
Proof.
  intros c Hw Hh Hwf Hrows Hcols Hmax x y cells.
  rewrite create_palette_run. fold c. fold x. fold y.
  assert (0 < x /\ 0 < y) as [Hx Hy] by (unfold x, y; destruct ver; lia).
  assert (palette_cells x y centers = Ok cells) as Hcells
    by (apply palette_cells_rows; try done; lia).
  rewrite Hcells, bind_Ok.
  set (palette := if rev then List.rev cells else cells).
  assert (Forall (sized x y) palette) as Hall.
  { unfold palette. destruct rev; [apply Forall_rev|]; apply cells_sized. }
  assert (Z.of_nat (length palette) = rows centers - 1) as Hlen.
  { unfold palette. replace (length (if rev then List.rev cells else cells))
      with (length cells) by (destruct rev; [by rewrite length_rev | done]).
    unfold cells. rewrite length_fmap, length_seqZ. lia. }
  assert (palette <> []) as Hne.
  { intros E. rewrite E in Hlen. simpl in Hlen. lia. }
  unfold x, y in *. destruct ver.
  - destruct (vconcat_sized _ _ palette Hne Hall) as (model & Hv & Hr & Hc);
      [rewrite Hlen; lia|].
    exists model. rewrite Hv. repeat split. cbn [picture_empty].
    rewrite Hr, Hc, Hlen. apply orb_false_iff. split; apply Z.leb_gt; nia.
  - destruct (hconcat_sized _ _ palette Hne Hall) as (model & Hv & Hr & Hc);
      [rewrite Hlen; lia|].
    exists model. rewrite Hv. repeat split. cbn [picture_empty].
    rewrite Hr, Hc, Hlen. apply orb_false_iff. split; apply Z.leb_gt; nia.
Qed.

Lemma bincount_ok (labels : list Z) :
  labels <> [] -> Forall (fun l => 0 <= l < INT_MAX) labels ->
  exists counts, bincount labels = Ok counts.
Proof.
  intros Hne Hpos.
  destruct (bincount_entries labels Hne Hpos) as (m & counts & _ & _ & H & _).
  eauto.
Qed.

(** The body of the loop on an image that can be read, when the library
    calls before the correlation return and neither [bincount] nor
    [create_palette] fails: the strip is shown, and the rest depends on
    [matchTemplate]. *)
Lemma process_image_readable win e w n labels centers counts model :
  let c := init_values w in
  image_empty e = false ->
  GaussianBlur e = Ok tt ->
  cv_resize e (resize c) = Ok tt ->
  int_result (resize c * resize c) = Ok n ->
  kmeans e n (n_clusters c) = Ok (labels, centers) ->
  bincount labels = Ok counts ->
  create_palette (vertical c) (reverse c) (sort_every_column centers) w =
    (Ok model, w) ->
  picture_empty (Strip model) = false ->
  let palette := mkWindow "palette" (px win, py win) (Strip model) in
  process_image win e w =
  match matchTemplate e model with
  | Ok res =>
      let r := dedup (vertical c) win
                 (traversal (reverse c) (hits res (threshold c))) in
      (Ok None,
       mkWorld c (cout w ++ image_output e r.2)
         (shown w ++ [palette;
                      mkWindow (entry_path e) (win_w c, win_h c)
                        (Annotated r.1)]))
  | Err x =>
      (Err x,
       mkWorld c (cout w ++ [Text (quoted (entry_path e)); Endl])
         (shown w ++ [palette]))
  end.
Proof.
  intros c Hread Hg Hr Hn Hk Hb Hcp Hpix palette. subst c palette.
  unfold process_image.
  rewrite run_print, Hread, Hg, run_lift_Ok, run_get_cfg.
  cbn [init_values cout shown].
  rewrite Hr, run_lift_Ok, run_get_cfg. cbn [init_values].
  rewrite Hn, run_lift_Ok, run_get_cfg. cbn [init_values].
  rewrite Hk, run_lift_Ok. lazy beta iota.
  rewrite Hb, run_lift_Ok, run_get_cfg. cbn [init_values].
  rewrite run_bind.
  rewrite create_palette_run in Hcp. injection Hcp as Hcp.
  rewrite create_palette_run. cbn [init_values]. rewrite Hcp.
  rewrite run_imshow by done. cbn [init_values cout shown].
  destruct (matchTemplate e model) as [res|x].
  - rewrite run_lift_Ok, run_get_cfg. cbn [init_values].
    rewrite locate_hits, run_lift_Ok, run_get_cfg. cbn [init_values].
    unfold image_output.
    destruct (dedup _ _ _) as [drawn temp]. cbn [fst snd].
    destruct (not_found temp).
    + rewrite run_print, run_get_cfg. cbn [init_values cout shown].
      rewrite run_imshow, run_ret by done. cbn [init_values cout shown].
      by rewrite <- !app_assoc.
    + rewrite run_bind, run_ret, run_get_cfg. cbn [init_values cout shown].
      rewrite run_imshow, run_ret by done. cbn [init_values cout shown].
      by rewrite <- !app_assoc, app_nil_r.
  - by rewrite run_lift_Err.
Qed.

(** An image that can be read never ends the run, and when its processing
    goes through it leaves two windows: the strip and the image. *)
Lemma process_image_outcome win e w r w' :
  image_empty e = false ->
  process_image win e w = (Ok r, w') ->
  r = None /\
  exists model drawn,
    shown w' =
    shown w ++ [mkWindow "palette" (px win, py win) (Strip model);
                mkWindow (entry_path e)
                  (win_w (init_values w), win_h (init_values w))
                  (Annotated drawn)].
Proof.
  intros Hread. unfold process_image.
  rewrite run_print, Hread.
  destruct (GaussianBlur e) as [[]|x];
    [rewrite run_lift_Ok | rewrite run_lift_Err; discriminate].
  rewrite run_get_cfg. cbn [init_values cout shown].
  destruct (cv_resize e _) as [[]|x];
    [rewrite run_lift_Ok | rewrite run_lift_Err; discriminate].
  rewrite run_get_cfg. cbn [init_values].
  destruct (int_result _) as [n|x];
    [rewrite run_lift_Ok | rewrite run_lift_Err; discriminate].
  rewrite run_get_cfg. cbn [init_values].
  destruct (kmeans e n _) as [[labels centers]|x];
    [rewrite run_lift_Ok | rewrite run_lift_Err; discriminate].
  lazy beta iota.
  destruct (bincount labels) as [counts|err];
    [rewrite run_lift_Ok | rewrite run_lift_Err; discriminate].
  rewrite run_get_cfg. cbn [init_values]. rewrite run_bind, create_palette_run.
  cbn [init_values].
  match goal with |- context [mbind ?f (palette_cells ?x ?y ?c)] =>
    destruct (mbind f (palette_cells x y c)) as [model|err]; [|discriminate] end.
  destruct (picture_empty (Strip model)) eqn:Hpix;
    [rewrite run_imshow_empty by done; discriminate|].
  rewrite run_imshow by done. cbn [init_values cout shown].
  destruct (matchTemplate e model) as [res|x];
    [rewrite run_lift_Ok | rewrite run_lift_Err; discriminate].
  rewrite run_get_cfg. cbn [init_values cout shown].
  rewrite locate_hits, run_lift_Ok, run_get_cfg. cbn [init_values].
  destruct (dedup _ _ _) as [drawn temp].
  destruct (not_found temp).
  - rewrite run_print, run_get_cfg. cbn [init_values cout shown].
    rewrite run_imshow, run_ret by done. cbn [init_values cout shown].
    intros [= <- <-]. split; [done|]. exists model, drawn.
    cbn [shown]. by rewrite <- app_assoc.
  - rewrite run_bind, run_ret, run_get_cfg. cbn [init_values cout shown].
    rewrite run_imshow, run_ret by done. cbn [init_values cout shown].
    intros [= <- <-]. split; [done|]. exists model, drawn.
    cbn [shown]. by rewrite <- app_assoc.
Qed.

Lemma main_loop_cons win e es w :
  main_loop win (e :: es) w =
  match process_image win e w with
  | (Ok (Some code), w') => (Ok code, w')
  | (Ok None, w') => main_loop win es w'
  | (Err x, w') => (Err x, w')
  end.
Proof.
  cbn [main_loop]. rewrite run_bind.
  destruct (process_image win e w) as [[[code|]|x] w']; done.
Qed.

(** When the loop over the directory returns, it returns 0 after showing
    two windows for each entry, or 1 at an entry that could not be read. *)
Lemma main_loop_exit_code (win : Point) (entries : list Entry)
    (w w' : World) (code : Z) :
  main_loop win entries w = (Ok code, w') ->
  (code = 0 /\ Forall (fun e => image_empty e = false) entries /\
   length (shown w') = (length (shown w) + 2 * length entries)%nat) \/
  (code = 1 /\ Exists (fun e => image_empty e = true) entries).
Proof.
  revert w. induction entries as [|e es IH]; intros w.
  - intros [= <- <-]. left. split; [done|]. split; [constructor | simpl; lia].
  - rewrite main_loop_cons. destruct (image_empty e) eqn:He.
    + rewrite process_image_unreadable by done. intros [= <- <-].
      right. split; [done|]. by left.
    + destruct (process_image win e w) as [[r|x] w1] eqn:Hp; [|discriminate].
      destruct (process_image_outcome _ _ _ _ _ He Hp)
        as (-> & model & drawn & Hshown).
      intros Hloop. destruct (IH _ Hloop) as [(-> & Hall & Hlen)|(-> & Hex)].
      * left. split; [done|]. split; [by constructor|].
        rewrite Hlen, Hshown, length_app. simpl. lia.
      * right. split; [done|]. by right.
Qed.

Lemma main_loop_readable_prefix win pre rest w code w1 :
  Forall (fun e => image_empty e = false) pre ->
  main_loop win pre w = (Ok code, w1) ->
  main_loop win (pre ++ rest) w = main_loop win rest w1.
Proof.
  intros Hall. revert w. induction Hall as [|e pre He _ IH]; intros w.
  - by intros [= <- <-].
  - cbn [app]. rewrite !main_loop_cons.
    destruct (process_image win e w) as [[r|x] w2] eqn:Hp; [|discriminate].
    destruct (process_image_outcome _ _ _ _ _ He Hp) as [-> _].
    apply IH.
Qed.

(** X18: an image that cannot be read ends the run.  When the entries
    before it are readable and processed without failure, the loop returns 1
    at the unreadable entry after printing its path and the message; the
    entries after it are not processed: nothing is printed or shown for
    them. *)
Theorem unreadable_image_ends_the_run (win : Point) (pre post : list Entry)
    (e : Entry) (w w1 : World) (code : Z) :
  Forall (fun e => image_empty e = false) pre ->
  main_loop win pre w = (Ok code, w1) ->
  image_empty e = true ->
  main_loop win (pre ++ e :: post) w =
  (Ok 1, mkWorld (init_values w1) (cout w1 ++ unreadable_output e) (shown w1)).
Proof.
  intros Hpre Hrun He.
  rewrite (main_loop_readable_prefix _ _ _ _ _ _ Hpre Hrun).
  by rewrite main_loop_cons, process_image_unreadable.
Qed.

(** X18 at a directory of three entries, the second one unreadable. *)
Lemma unreadable_image_ends_the_run_witness :
  let win := mkPoint 128 695 in
  let w1 := (main_loop win [border_entry] ready).2 in
  Forall (fun e => image_empty e = false) [border_entry] /\
  main_loop win [border_entry] ready = (Ok 0, w1) /\
  image_empty unreadable_entry = true /\
  main_loop win [border_entry; unreadable_entry; border_entry] ready =
  (Ok 1, mkWorld (init_values w1) (cout w1 ++ unreadable_output unreadable_entry)
           (shown w1)).
Proof.
  intros win w1.
  assert (Forall (fun e => image_empty e = false) [border_entry]) as Hpre
    by (repeat constructor).
  assert ((main_loop win [border_entry] ready).1 = Ok 0) as H1
    by (vm_compute; reflexivity).
  assert (main_loop win [border_entry] ready = (Ok 0, w1)) as Hrun
    by (rewrite <- H1; unfold w1; by destruct (main_loop win [border_entry] ready)).
  split; [exact Hpre|]. split; [exact Hrun|]. split; [reflexivity|].
  exact (unreadable_image_ends_the_run win [border_entry] [border_entry]
           unreadable_entry ready w1 0 Hpre Hrun eq_refl).
Defined.

(** X17: the processing of one readable image, end to end.  Suppose the
    smoothing, the resizing and the clustering return, the number of samples
    [resize * resize] is an [int], the labels are non-negative, below
    [INT_MAX] and not empty, the centres have at least two rows and 3
    columns, the cell sizes are positive and the long side of the strip is
    an [int].  Then the strip is built from the sorted centres and shown in
    the window "palette" at the size [setwin] gave.  When [matchTemplate]
    returns a surface for that strip, the surface is scanned at the
    configured threshold, the candidates are traversed (reversed when
    [reverse] is set) and deduplicated, and the image is shown with the
    accepted boxes in a window of [win_w] by [win_h], named by its path; the
    quoted path is printed first, the message last when [temp] is 0; the
    loop goes on.  When [matchTemplate] throws, the exception ends the run
    with the strip shown and the path printed.  The settings are unchanged
    either way. *)
Theorem process_image_shows_detections (win : Point) (e : Entry) (w : World)
    (n : Z) (labels : list Z) (centers : Mat float_val) :
  let c := init_values w in
  image_empty e = false ->
  GaussianBlur e = Ok tt ->
  cv_resize e (resize c) = Ok tt ->
  int_result (resize c * resize c) = Ok n ->
  kmeans e n (n_clusters c) = Ok (labels, centers) ->
  labels <> [] -> Forall (fun l => 0 <= l < INT_MAX) labels ->
  mat_wf centers -> 2 <= rows centers -> cols centers = 3 ->
  0 < color_w c -> 0 < color_h c ->
  color_h c * (rows centers - 1) <= INT_MAX ->
  exists model,
    let palette := mkWindow "palette" (px win, py win) (Strip model) in
    create_palette (vertical c) (reverse c) (sort_every_column centers) w =
      (Ok model, w) /\
    (forall res,
       matchTemplate e model = Ok res ->
       exists loc,
         locate res (threshold c) = Ok loc /\
         let r := dedup (vertical c) win (traversal (reverse c) loc) in
         process_image win e w =
         (Ok None,
          mkWorld c (cout w ++ image_output e r.2)
            (shown w ++ [palette;
                         mkWindow (entry_path e) (win_w c, win_h c)
                           (Annotated r.1)]))) /\
    (forall x,
       matchTemplate e model = Err x ->
       process_image win e w =
       (Err x,
        mkWorld c (cout w ++ [Text (quoted (entry_path e)); Endl])
          (shown w ++ [palette]))).
Proof.
  intros c Hread Hg Hr Hn Hk Hne Hpos Hwf Hrows Hcols Hw Hh Hmax.
  destruct (bincount_ok labels Hne Hpos) as [counts Hb].
  assert (mat_wf (sort_every_column centers)) as Hwf' by done.
  destruct (create_palette_ok w (vertical c) (reverse c)
              (sort_every_column centers) Hw Hh Hwf')
    as (model & _ & _ & Hcp & Hpix);
    [exact Hrows | change (3 <= cols centers); lia | exact Hmax |].
  exists model. split; [exact Hcp|].
  pose proof (process_image_readable win e w n labels centers counts model
                Hread Hg Hr Hn Hk Hb Hcp Hpix) as Hrun.
  cbv zeta in Hrun. split.
  - intros res Hres. rewrite Hres in Hrun.
    exists (hits res (threshold c)). split; [apply locate_hits | exact Hrun].
  - intros x Hx. by rewrite Hx in Hrun.
Qed.

(** X17 at [border_entry] with the compiled-in settings. *)
Lemma process_image_shows_detections_witness :
  let c := init_values ready in
  let win := mkPoint 128 695 in
  image_empty border_entry = false /\
  int_result (resize c * resize c) = Ok 14400 /\
  kmeans border_entry 14400 (n_clusters c) =
    Ok ([0; 1; 2; 3; 4; 5], sample_centers) /\
  mat_wf sample_centers /\
  exists model,
    create_palette (vertical c) (reverse c) (sort_every_column sample_centers)
      ready = (Ok model, ready) /\
    matchTemplate border_entry model = Ok res_border /\
    exists loc,
      locate res_border (threshold c) = Ok loc /\
      let r := dedup (vertical c) win (traversal (reverse c) loc) in
      process_image win border_entry ready =
      (Ok None,
       mkWorld c (cout ready ++ image_output border_entry r.2)
         (shown ready ++
            [mkWindow "palette" (px win, py win) (Strip model);
             mkWindow (entry_path border_entry) (win_w c, win_h c)
               (Annotated r.1)])).
Proof.
  intros c win.
  assert (mat_wf sample_centers) as Hwf by (unfold mat_wf, INT_MAX; simpl; lia).
  assert (Forall (fun l => 0 <= l < INT_MAX) [0; 1; 2; 3; 4; 5]) as Hpos
    by (repeat constructor; unfold INT_MAX; lia).
  split; [reflexivity|]. split; [reflexivity|]. split; [reflexivity|].
  split; [exact Hwf|].
  destruct (process_image_shows_detections win border_entry ready 14400
              [0; 1; 2; 3; 4; 5] sample_centers
              eq_refl eq_refl eq_refl eq_refl eq_refl
              ltac:(discriminate) Hpos Hwf ltac:(simpl; lia) eq_refl
              ltac:(simpl; lia) ltac:(simpl; lia)
              ltac:(unfold INT_MAX; simpl; lia))
    as (model & Hcp & Hok & _).
  exists model. split; [exact Hcp|]. split; [reflexivity|].
  exact (Hok res_border eq_refl).
Defined.

(** ** ColorQuantizer: the ordering step in the pipeline *)

(** C3: in the processing of an image whose clustering returned centres
    with at least two rows, three columns and no NaN, the centres are
    ordered before the strip is built.  After the ordering step each of the
    three columns is sorted ascending (and is a rearrangement of the column
    [kmeans] gave); the last row holds, in every channel, a value no other
    row exceeds; the loop of [create_palette] makes one cell per row of the
    ordered matrix but the last ([rows - 1] cells, cell [i] from row [i]);
    and the strip shown in the window "palette" is the concatenation of
    those cells, in that order or reversed. *)
Theorem sorted_centers_last_row_excluded (win : Point) (e : Entry) (w : World)
    (n : Z) (labels : list Z) (centers : Mat float_val) :
  let c := init_values w in
  let x := if vertical c then color_h c else color_w c in
  let y := if vertical c then color_w c else color_h c in
  image_empty e = false ->
  GaussianBlur e = Ok tt ->
  cv_resize e (resize c) = Ok tt ->
  int_result (resize c * resize c) = Ok n ->
  kmeans e n (n_clusters c) = Ok (labels, centers) ->
  labels <> [] -> Forall (fun l => 0 <= l < INT_MAX) labels ->
  mat_wf centers -> 2 <= rows centers -> cols centers = 3 ->
  (forall i j, 0 <= i < rows centers -> 0 <= j < 3 ->
               is_nan (data centers i j) = false) ->
  0 < color_w c -> 0 < color_h c ->
  color_h c * (rows centers - 1) <= INT_MAX ->
  let sorted := sort_every_column centers in
  (forall j, 0 <= j < 3 ->
     StronglySorted ascending (column sorted j) /\
     column sorted j ≡ₚ column centers j) /\
  (forall i j, 0 <= i < rows centers -> 0 <= j < 3 ->
     ascending (data sorted i j) (data sorted (rows centers - 1) j)) /\
  exists palette model rest,
    palette_cells x y sorted = Ok palette /\
    length palette = Z.to_nat (rows centers - 1) /\
    (forall i, 0 <= i < rows centers - 1 ->
       palette !! Z.to_nat i = Some (cell_of_row x y sorted i)) /\
    (if vertical c
     then vconcat (if reverse c then List.rev palette else palette)
     else hconcat (if reverse c then List.rev palette else palette)) =
      Ok model /\
    shown (process_image win e w).2 =
      shown w ++ mkWindow "palette" (px win, py win) (Strip model) :: rest.
Proof.
  intros c x y Hread Hg Hr Hn Hk Hne Hpos Hwf Hrows Hcols Hnan Hw Hh Hmax sorted.
  destruct (sort_every_column_sorted centers Hwf Hrows Hnan) as [Hs Hlast].
  split; [exact Hs|]. split; [exact Hlast|].
  destruct (bincount_ok labels Hne Hpos) as [counts Hb].
  assert (mat_wf sorted) as Hwf' by done.
  destruct (create_palette_ok w (vertical c) (reverse c) sorted Hw Hh Hwf')
    as (model & Hcells & Hcat & Hcp & Hpix);
    [exact Hrows | change (3 <= cols centers); lia | exact Hmax |].
  change (rows sorted) with (rows centers) in Hcells, Hcat.
  fold c x y in Hcells, Hcat.
  pose proof (process_image_readable win e w n labels centers counts model
                Hread Hg Hr Hn Hk Hb Hcp Hpix) as Hrun.
  cbv zeta in Hrun.
  exists (cell_of_row x y sorted <$> seqZ 0 (rows centers - 1)), model.
  assert (exists rest,
            shown (process_image win e w).2 =
            shown w ++ mkWindow "palette" (px win, py win) (Strip model) :: rest)
    as [rest Hshown].
  { rewrite Hrun. destruct (matchTemplate e model); eexists; reflexivity. }
  exists rest. split; [exact Hcells|]. split.
  { by rewrite length_fmap, length_seqZ. }
  split; [|split; [exact Hcat | exact Hshown]].
  intros i Hi. rewrite list_lookup_fmap, lookup_seqZ_lt by lia.
  simpl. do 2 f_equal. lia.
Qed.

(** C3 at [shuffled_entry], whose clustering gives the rows of
    [sample_centers] in another order in every column: the ordering step
    puts them back. *)
Lemma sorted_centers_last_row_excluded_witness :
  let c := init_values ready in
  let win := mkPoint 128 695 in
  kmeans shuffled_entry 14400 (n_clusters c) =
    Ok ([0; 1; 2; 3; 4; 5], shuffled_centers) /\
  data shuffled_centers 0 0 = FNum 120 /\
  data (sort_every_column shuffled_centers) 0 0 = FNum 0 /\
  (forall j, 0 <= j < 3 ->
     StronglySorted ascending (column (sort_every_column shuffled_centers) j)) /\
  exists palette model rest,
    palette_cells 139 128 (sort_every_column shuffled_centers) = Ok palette /\
    length palette = 5%nat /\
    vconcat (List.rev palette) = Ok model /\
    shown (process_image win shuffled_entry ready).2 =
      mkWindow "palette" (128, 695) (Strip model) :: rest.
Proof.
  intros c win.
  assert (mat_wf shuffled_centers) as Hwf by (unfold mat_wf, INT_MAX; simpl; lia).
  assert (forall i j, 0 <= i < rows shuffled_centers -> 0 <= j < 3 ->
                      is_nan (data shuffled_centers i j) = false) as Hnan
    by (intros; reflexivity).
  assert (Forall (fun l => 0 <= l < INT_MAX) [0; 1; 2; 3; 4; 5]) as Hpos
    by (repeat constructor; unfold INT_MAX; lia).
  destruct (sorted_centers_last_row_excluded win shuffled_entry ready 14400
              [0; 1; 2; 3; 4; 5] shuffled_centers
              eq_refl eq_refl eq_refl eq_refl eq_refl
              ltac:(discriminate) Hpos Hwf ltac:(simpl; lia) eq_refl Hnan
              ltac:(simpl; lia) ltac:(simpl; lia)
              ltac:(unfold INT_MAX; simpl; lia))
    as (Hsorted & _ & palette & model & rest & Hp & Hlen & _ & Hcat & Hshown).
  split; [reflexivity|]. split; [reflexivity|]. split; [reflexivity|].
  split.
  - intros j Hj. exact (proj1 (Hsorted j Hj)).
  - exists palette, model, rest.
    split; [exact Hp|]. split; [exact Hlen|]. split; [exact Hcat|].
    exact Hshown.
Defined.

(** The strip shown for [shuffled_entry] has the colours of the ordered
    centres, not those of the rows [kmeans] gave: its first pixel is that of
    row 4 of [sample_centers]. *)
Lemma shuffled_strip_is_sorted :
  match shown (process_image (mkPoint 128 695) shuffled_entry ready).2 with
  | {| window_picture := Strip model |} :: _ =>
      data model 0 0 = (160, 161, 162) /\
      pixel_of_row shuffled_centers 4 = (200, 41, 122)
  | _ => False
  end.
Proof. vm_compute. done. Qed.

Lemma shows_nothing_ret {A} (a : A) : shows_nothing (mret a : M A).
Proof. by intros w. Qed.

Lemma shows_nothing_lift {A} (r : result A) : shows_nothing (lift r).
Proof. by intros w. Qed.

Lemma shows_nothing_get_cfg : shows_nothing get_cfg.
Proof. by intros w. Qed.

Lemma shows_nothing_modify_cfg f : shows_nothing (modify_cfg f).
Proof. by intros w. Qed.

Lemma shows_nothing_print items : shows_nothing (print items).
Proof. by intros w. Qed.

Lemma shows_nothing_bind {A B} (m : M A) (f : A -> M B) :
  shows_nothing m -> (forall a, shows_nothing (f a)) -> shows_nothing (m ≫= f).
Proof.
  intros Hm Hf w. rewrite run_bind. specialize (Hm w).
  destruct (m w) as [[a|e] w1]; cbn [snd] in *; [|done].
  by rewrite Hf.
Qed.

Lemma shows_nothing_try_catch (body handler : M unit) :
  shows_nothing body -> shows_nothing handler ->
  shows_nothing (try_catch body handler).
Proof.
  intros Hb Hh w. unfold try_catch. specialize (Hb w).
  destruct (body w) as [[[]|[what|why]] w1]; cbn [snd] in *; [done| |done].
  by rewrite Hh.
Qed.

Create HintDb shows_nothing.
#[local] Hint Resolve shows_nothing_ret shows_nothing_lift
  shows_nothing_get_cfg shows_nothing_modify_cfg shows_nothing_print
  : shows_nothing.

Ltac shows_nothing :=
  repeat first
    [ solve [auto with shows_nothing]
    | apply shows_nothing_bind; [|intros ?]
    | match goal with
      | |- shows_nothing (match ?p with _ => _ end) => destruct p
      end
    | progress cbn zeta ].

Section MainMore.

Variable stod : string -> option float_val.

Lemma read_settings_shows_nothing file :
  shows_nothing (read_settings stod file).
Proof.
  unfold read_settings. apply shows_nothing_try_catch; [|shows_nothing].
  unfold read_settings_body. shows_nothing.
Qed.

(** [main] after its start: the footprint, then the directory. *)
Lemma main_run settings argv dir w :
  let c := init_values (read_settings stod settings w).2 in
  exists w1,
    main_init stod settings argv w = (Ok tt, w1) /\
    shown w1 = shown w /\
    path (init_values w1) = listed_directory argv c /\
    color_h (init_values w1) * colors (init_values w1) =
      color_h c * (n_clusters c - 1) /\
    main stod settings argv dir w =
    match setwin w1 with
    | (Ok win, _) =>
        match dir (path (init_values w1)) with
        | None => (Err (Exception "filesystem_error"), w1)
        | Some entries => main_loop win entries w1
        end
    | (Err x, _) => (Err x, w1)
    end.
Proof.
  intros c. destruct (main_init_run stod settings argv w) as [out Hrun].
  destruct (main_init stod settings argv w) as [r w1] eqn:E.
  injection Hrun as -> Hw1. exists w1. split; [done|].
  split; [rewrite Hw1; cbn [shown]; apply read_settings_shows_nothing|].
  split; [rewrite Hw1; by destruct argv as [|a0 [|a1 argv]]|].
  split; [rewrite Hw1; by destruct argv as [|a0 [|a1 argv]]|].
  clear Hw1. unfold main. rewrite run_bind, E, run_bind, (setwin_run w1).
  destruct (int_result _) as [extent|x];
    [rewrite !bind_Ok | by rewrite !bind_Err].
  rewrite run_get_cfg. by destruct (dir _).
Qed.

(** X20: [main] lists one directory: the first argument of the command line
    when there is one, whatever path the settings file gives, and the path of
    the settings otherwise.  Two file systems that agree on that directory
    give the same run: result, output and windows. *)
Theorem main_reads_one_directory (settings : option string)
    (argv : list string) (dir dir' : string -> option (list Entry))
    (w : World) :
  let p := listed_directory argv
             (init_values (read_settings stod settings w).2) in
  dir p = dir' p ->
  main stod settings argv dir w = main stod settings argv dir' w.
Proof.
  intros p Hp.
  destruct (main_run settings argv dir w) as (w1 & Hi & _ & Hpath & _ & ->).
  destruct (main_run settings argv dir' w) as (w2 & Hi' & _ & _ & _ & ->).
  rewrite Hi in Hi'. injection Hi' as <-.
  rewrite Hpath. fold p. by rewrite <- Hp.
Qed.


(** X19: when [main] returns, the directory could be listed and the value
    returned is 0 or 1.  It is 0 only when every entry could be read, and
    then two windows were shown for each entry; it is 1 only when some entry
    could not be read. *)
Theorem main_exit_code (settings : option string) (argv : list string)
    (dir : string -> option (list Entry)) (w w' : World) (code : Z) :
  main stod settings argv dir w = (Ok code, w') ->
  exists entries,
    dir (listed_directory argv
           (init_values (read_settings stod settings w).2)) = Some entries /\
    ((code = 0 /\ Forall (fun e => image_empty e = false) entries /\
      length (shown w') = (length (shown w) + 2 * length entries)%nat) \/
     (code = 1 /\ Exists (fun e => image_empty e = true) entries)).
Proof.
  destruct (main_run settings argv dir w)
    as (w1 & _ & Hshown & Hpath & _ & ->).
  rewrite Hpath. destruct (setwin w1) as [[win|x] w2]; [|discriminate].
  destruct (dir _) as [entries|]; [|discriminate].
  intros Hloop. exists entries. split; [done|].
  rewrite <- Hshown. exact (main_loop_exit_code _ _ _ _ _ Hloop).
Qed.

End MainMore.

(** X20 at the command line [prog imgs]. *)
Lemma main_reads_one_directory_witness :
  sample_dir "imgs" = Some [border_entry; unreadable_entry; border_entry] /\
  main stod_none None ["prog"; "imgs"] sample_dir start =
  main stod_none None ["prog"; "imgs"]
    (fun _ => Some [border_entry; unreadable_entry; border_entry]) start.
Proof.
  split; [reflexivity|].
  exact (main_reads_one_directory stod_none None ["prog"; "imgs"] sample_dir
           (fun _ => Some [border_entry; unreadable_entry; border_entry])
           start eq_refl).
Defined.


(** X19 at a directory whose second entry cannot be read. *)
Lemma main_exit_code_witness :
  let r := main stod_none None ["prog"; "imgs"] sample_dir start in
  r.1 = Ok 1 /\
  exists entries,
    sample_dir "imgs" = Some entries /\
    ((1 = 0 /\ Forall (fun e => image_empty e = false) entries /\
      length (shown r.2) = (0 + 2 * length entries)%nat) \/
     (1 = 1 /\ Exists (fun e => image_empty e = true) entries)).
Proof.
  intros r.
  assert (r.1 = Ok 1) as H1 by (vm_compute; reflexivity).
  split; [exact H1|].
  assert (r = (Ok 1, r.2)) as Hr by (rewrite <- H1; by destruct r).
  exact (main_exit_code stod_none None ["prog"; "imgs"] sample_dir start r.2 1
           Hr).
Defined.
